(** * punchdrunk: the GIF folder normaliser (static/gifs/gifs.py)

    A shallow embedding of [detect_file_type], [clean_filename],
    [convert_to_gif] and [process_folder], and the properties the
    specification states about them.

    Conventions of the model.
    - File contents are [list byte]; file names are [string]s.
    - The script works on one folder.  A [pathlib.Path] [folder / name] is
      represented by [name]; two such paths are equal exactly when their
      names are (POSIX path comparison), and [os.path.abspath] of the two
      string forms agrees exactly when the names agree.
    - The folder is a finite map from names to entries (regular files with
      their contents, or subfolders).  Every system call is recorded in a
      log, newest first.
    - What the operating system, the external [ffmpeg] process and the
      operator decide is given by an environment [Env] of oracles that see
      the whole current world (folder and log); a theorem quantified over
      [Env] holds for every pattern of failures.
    - Python exceptions are the [Raise] results of a state-and-exception
      monad; [try ... except Exception] is [try_except].  The calls that
      can raise are [open]/[read], [os.replace], [Path.rename] and
      [Path.unlink]; [Path.exists], [Path.iterdir] on an existing folder,
      [os.system] and [input] are taken to return.
    - The command line given to [os.system] is represented by its input
      and output paths; the process is taken to write at its output path
      only.
    - [print] produces no result the program depends on and is left out,
      except that printing the summary is recorded in the log.
    - The two unbounded loops ([clean_filename], and the search for a free
      name) are written with an iteration budget; that the budget used is
      never exhausted is proved below. *)

From Stdlib Require Import Strings.Byte Strings.Ascii ZArith Lia.
From stdpp Require Import base option list strings gmap pretty.

Local Open Scope Z_scope.

(** ** Bytes *)

Abbreviation bytes := (list byte).

#[global] Instance byte_eq_dec : EqDecision byte := Byte.byte_eq_dec.

(** [b'...'] literals with printable characters only. *)
Definition lit (s : string) : bytes := String.list_byte_of_string s.

(** [s.startswith(p)] *)
Fixpoint startswith (s p : bytes) {struct p} : bool :=
  match p, s with
  | [], _ => true
  | _ :: _, [] => false
  | b :: p', a :: s' => bool_decide (a = b) && startswith s' p'
  end.

(** [s[lo:hi]] for [0 <= lo <= hi]: slicing never fails, it truncates. *)
Definition slice (lo hi : nat) (s : bytes) : bytes :=
  take (hi - lo) (drop lo s).

(** [needle in hay] *)
Fixpoint contains (needle hay : bytes) : bool :=
  startswith hay needle ||
  match hay with
  | [] => false
  | _ :: hay' => contains needle hay'
  end.

(** [len(s) >= n] *)
Definition len_ge (s : bytes) (n : nat) : bool := bool_decide (n ≤ length s)%nat.

(** ** Type tags

    The strings ['gif'], ['html'], ... returned by [detect_file_type]. *)

Inductive file_type :=
| gif | html | text_error | text_file
| mp4 | webm | avi | mov
| png | jpeg | webp | apng
| unknown.

#[global] Instance file_type_eq_dec : EqDecision file_type.
Proof. solve_decision. Defined.

(** ** Statistics, folder, world *)

(** [stats = {'converted': 0, 'renamed': 0, 'skipped': 0, 'failed': 0}] *)
Record Stats := mkStats {
  converted : nat;
  renamed : nat;
  skipped : nat;
  failed : nat
}.

#[global] Instance Stats_eq_dec : EqDecision Stats.
Proof. solve_decision. Defined.

Inductive entry :=
| File (content : bytes)
| Dir.

Definition is_file (e : entry) : bool :=
  match e with File _ => true | Dir => false end.

Inductive event :=
| EvOpen (path : string)              (* open(path, 'rb') and read *)
| EvSystem (input output : string)    (* os.system(ffmpeg -i input ... -y output) *)
| EvReplace (src dst : string)        (* os.replace *)
| EvRename (src dst : string)         (* Path.rename *)
| EvUnlink (path : string)            (* Path.unlink *)
| EvInput                             (* input(...) *)
| EvSummary (s : Stats).              (* the SUMMARY block is printed *)

(** The calls that can change the folder. *)
Definition mutating (ev : event) : bool :=
  match ev with
  | EvSystem _ _ | EvReplace _ _ | EvRename _ _ | EvUnlink _ => true
  | EvOpen _ | EvInput | EvSummary _ => false
  end.

Record World := mkWorld {
  folder_exists : bool;
  files : gmap string entry;
  log : list event
}.

Definition record (ev : event) (w : World) : World :=
  mkWorld (folder_exists w) (files w) (ev :: log w).

Definition set_files (fs : gmap string entry) (w : World) : World :=
  mkWorld (folder_exists w) fs (log w).

(** What the script does not decide.  [ffmpeg w input output] is the exit
    status [os.system] returns and what the process leaves at its output
    path ([None]: it wrote nothing); the process is taken to touch no other
    path.  The [_fails] oracles say when a call raises although the folder
    would allow it (permissions, locks, ...). *)
Record Env := mkEnv {
  open_fails : World → string → bool;
  rename_fails : World → string → string → bool;
  unlink_fails : World → string → bool;
  replace_fails : World → string → string → bool;
  ffmpeg : World → string → string → Z * option bytes;
  answer : World → string
}.

(** ** The monad: state and exceptions *)

Inductive exn := OSError.

Inductive Res (A : Type) :=
| Ok (a : A)
| Raise (e : exn).
Arguments Ok {A} a.
Arguments Raise {A} e.

Definition M (A : Type) : Type := World → Res A * World.

Definition ret {A} (a : A) : M A := λ w, (Ok a, w).

Definition bind {A B} (m : M A) (k : A → M B) : M B :=
  λ w, match m w with
       | (Ok a, w') => k a w'
       | (Raise e, w') => (Raise e, w')
       end.

(** [try: m  except Exception as e: h e] *)
Definition try_except {A} (m : M A) (h : exn → M A) : M A :=
  λ w, match m w with
       | (Ok a, w') => (Ok a, w')
       | (Raise e, w') => h e w'
       end.

Notation "x <- m ;; k" := (bind m (λ x, k))
  (at level 100, m at next level, right associativity).
Notation "m ;;; k" := (bind m (λ _, k))
  (at level 100, right associativity).

(** ** Python library functions used by the script *)

(** [s[:n]] and [s[n:]] on strings. *)
Fixpoint str_take (n : nat) (s : string) : string :=
  match n, s with
  | S n', String a s' => String a (str_take n' s')
  | _, _ => ""
  end.

Fixpoint str_drop (n : nat) (s : string) : string :=
  match n, s with
  | S n', String _ s' => str_drop n' s'
  | _, _ => s
  end.

(** [s.rfind(c)]: the highest index of [c] in [s], or [-1]. *)
Fixpoint rfind_go (c : ascii) (s : string) (i last : Z) : Z :=
  match s with
  | "" => last
  | String a s' => rfind_go c s' (i + 1) (if bool_decide (a = c) then i else last)
  end.

Definition rfind (s : string) (c : ascii) : Z := rfind_go c s 0 (-1).

(** The loop of [genericpath._splitext] that skips leading dots: is there a
    character other than ['.'] among the [steps] characters from
    [filenameIndex] on? *)
Fixpoint non_dot_before (steps : nat) (p : string) (filenameIndex : Z) : bool :=
  match steps with
  | O => false
  | S k =>
      if bool_decide (String.get (Z.to_nat filenameIndex) p ≠ Some "."%char)
      then true
      else non_dot_before k p (filenameIndex + 1)
  end.

(** [os.path.splitext] of [posixpath] ([sep = '/'], no [altsep],
    [extsep = '.']), after CPython's [genericpath._splitext]. *)
Definition splitext (p : string) : string * string :=
  let sepIndex := rfind p "/"%char in
  let dotIndex := rfind p "."%char in
  if bool_decide (dotIndex > sepIndex)
     && non_dot_before (Z.to_nat (dotIndex - (sepIndex + 1))) p (sepIndex + 1)
  then (str_take (Z.to_nat dotIndex) p, str_drop (Z.to_nat dotIndex) p)
  else (p, "").

(** [reply.lower() == 'y'] *)
Definition is_yes (reply : string) : bool :=
  bool_decide (reply = "y") || bool_decide (reply = "Y").

(** ** [clean_filename] (lines 74-83) *)

(** The [while True] loop; [fuel] bounds the number of iterations. *)
Fixpoint clean_loop (fuel : nat) (name : string) : option string :=
  match fuel with
  | O => None
  | S k =>
      let '(name_part, ext) := splitext name in
      if bool_decide (ext ≠ "") then clean_loop k name_part else Some name
  end.

(** One iteration per character of the name is enough
    ([clean_loop_terminates] below). *)
Definition clean_filename (filename : string) : string :=
  default filename (clean_loop (S (String.length filename)) filename).

(** ** The name-conflict loop of [process_folder] (lines 168-176) *)

Definition path_exists (fs : gmap string entry) (name : string) : bool :=
  bool_decide (is_Some (fs !! name)).

(** [f"{clean_name}_{counter}.gif"] *)
Definition numbered (clean_name : string) (counter : nat) : string :=
  clean_name +:+ "_" +:+ pretty counter +:+ ".gif".

(** [while output_path.exists() and output_path != file: ...], entered with
    the current [final_name] and [counter]; [fuel] bounds the iterations. *)
Fixpoint conflict_loop (fuel : nat) (fs : gmap string entry)
    (file clean_name final_name : string) (counter : nat) : option string :=
  if path_exists fs final_name && bool_decide (final_name ≠ file)
  then match fuel with
       | O => None
       | S k => conflict_loop k fs file clean_name
                  (numbered clean_name counter) (S counter)
       end
  else Some final_name.

(** Lines 166-176: [counter = 1], [final_name = new_filename], then the
    loop.  As many iterations as the folder has entries are enough
    ([conflict_loop_terminates] below). *)
Definition resolve_name (fs : gmap string entry) (file clean_name : string) : string :=
  let new_filename := clean_name +:+ ".gif" in
  default new_filename
    (conflict_loop (size fs) fs file clean_name new_filename 1).

(** The names the loop tries, in order: [clean_name.gif], then
    [clean_name_1.gif], [clean_name_2.gif], ... *)
Definition candidate (clean_name : string) (k : nat) : string :=
  match k with
  | O => clean_name +:+ ".gif"
  | S _ => numbered clean_name k
  end.

(** The loop condition for a candidate name. *)
Definition taken (fs : gmap string entry) (file name : string) : bool :=
  path_exists fs name && bool_decide (name ≠ file).

(** ** Run state of [process_folder] (lines 124-129) *)

Record Run := mkRun {
  stats : Stats;
  processed : list string;
  html_files : list string;
  text_error_files : list string;
  text_files : list string;
  unknown_files : list string
}.

Definition new_run : Run := mkRun (mkStats 0 0 0 0) [] [] [] [] [].

(** The keys of [stats], and [stats[key] += 1]. *)
Inductive counter := Converted | Renamed | Skipped | Failed.

#[global] Instance counter_eq_dec : EqDecision counter.
Proof. solve_decision. Defined.

Definition count (key : counter) (s : Stats) : nat :=
  match key with
  | Converted => converted s
  | Renamed => renamed s
  | Skipped => skipped s
  | Failed => failed s
  end.

Definition incr (key : counter) (s : Stats) : Stats :=
  match key with
  | Converted => mkStats (S (converted s)) (renamed s) (skipped s) (failed s)
  | Renamed => mkStats (converted s) (S (renamed s)) (skipped s) (failed s)
  | Skipped => mkStats (converted s) (renamed s) (S (skipped s)) (failed s)
  | Failed => mkStats (converted s) (renamed s) (skipped s) (S (failed s))
  end.

(** The sum the summary adds up to. *)
Definition total (s : Stats) : nat :=
  (converted s + renamed s + skipped s + failed s)%nat.

Definition with_stats (f : Stats → Stats) (r : Run) : Run :=
  mkRun (f (stats r)) (processed r) (html_files r) (text_error_files r)
        (text_files r) (unknown_files r).

(** [bucket.append(file)] for each of the five lists. *)
Definition add_processed (name : string) (r : Run) : Run :=
  mkRun (stats r) (processed r ++ [name]) (html_files r) (text_error_files r)
        (text_files r) (unknown_files r).
Definition add_html (name : string) (r : Run) : Run :=
  mkRun (stats r) (processed r) (html_files r ++ [name]) (text_error_files r)
        (text_files r) (unknown_files r).
Definition add_text_error (name : string) (r : Run) : Run :=
  mkRun (stats r) (processed r) (html_files r) (text_error_files r ++ [name])
        (text_files r) (unknown_files r).
Definition add_text_file (name : string) (r : Run) : Run :=
  mkRun (stats r) (processed r) (html_files r) (text_error_files r)
        (text_files r ++ [name]) (unknown_files r).
Definition add_unknown (name : string) (r : Run) : Run :=
  mkRun (stats r) (processed r) (html_files r) (text_error_files r)
        (text_files r) (unknown_files r ++ [name]).

(** How a call of [process_folder] ends: the two early returns, or after
    the summary and the review of the buckets. *)
Inductive Outcome :=
| FolderMissing
| NoFiles
| Finished (r : Run).

(** ** Signatures tested by [detect_file_type] *)

Definition PNG_SIGNATURE : bytes := [x89; x50; x4e; x47; x0d; x0a; x1a; x0a].
Definition PNG_SHORT : bytes := [x89; x50; x4e; x47].
Definition EBML_MAGIC : bytes := [x1a; x45; xdf; xa3].
Definition JPEG_SOI : bytes := [xff; xd8; xff].

(** Line 42: [b'moov' in chunk or b'mdat' in chunk or
    (b'ftyp' in chunk and b'qt' in chunk)] *)
Definition has_mov_marker (chunk : bytes) : bool :=
  contains (lit "moov") chunk || contains (lit "mdat") chunk
  || (contains (lit "ftyp") chunk && contains (lit "qt") chunk).

Section Program.

Context (env : Env).

(** ** System calls *)

(** [with open(path, 'rb') as f: f.read(n)] *)
Definition open_read (path : string) (n : nat) : M bytes := λ w,
  let w' := record (EvOpen path) w in
  match files w !! path with
  | Some (File content) =>
      if open_fails env w path then (Raise OSError, w')
      else (Ok (take n content), w')
  | _ => (Raise OSError, w')
  end.

(** [os.system(cmd)] for the ffmpeg command line of [convert_to_gif]. *)
Definition os_system (input output : string) : M Z := λ w,
  let '(status, written) := ffmpeg env w input output in
  let fs := match written with
            | Some content => <[output := File content]> (files w)
            | None => files w
            end in
  (Ok status, record (EvSystem input output) (set_files fs w)).

(** Moving an entry; shared by [os.replace] and [Path.rename]. *)
Definition move (src dst : string) (fs : gmap string entry) : option (gmap string entry) :=
  match fs !! src with
  | Some e => Some (<[dst := e]> (delete src fs))
  | None => None
  end.

(** [os.replace(src, dst)] *)
Definition os_replace (src dst : string) : M unit := λ w,
  let w' := record (EvReplace src dst) w in
  if replace_fails env w src dst then (Raise OSError, w')
  else match move src dst (files w) with
       | Some fs => (Ok (), set_files fs w')
       | None => (Raise OSError, w')
       end.

(** [src.rename(dst)] *)
Definition path_rename (src dst : string) : M unit := λ w,
  let w' := record (EvRename src dst) w in
  if rename_fails env w src dst then (Raise OSError, w')
  else match move src dst (files w) with
       | Some fs => (Ok (), set_files fs w')
       | None => (Raise OSError, w')
       end.

(** [path.unlink()] *)
Definition path_unlink (path : string) : M unit := λ w,
  let w' := record (EvUnlink path) w in
  match files w !! path with
  | Some (File _) =>
      if unlink_fails env w path then (Raise OSError, w')
      else (Ok (), set_files (delete path (files w)) w')
  | _ => (Raise OSError, w')
  end.

(** [input(prompt)] *)
Definition input : M string := λ w, (Ok (answer env w), record EvInput w).

(** Reading the folder without changing it. *)
Definition get_files : M (gmap string entry) := λ w, (Ok (files w), w).

Definition print_summary (s : Stats) : M unit := λ w, (Ok (), record (EvSummary s) w).

(** ** [detect_file_type] (lines 5-72)

    [Some tag] for the returned string, [None] for Python's [None]. *)
Definition detect_file_type (file_path : string) : M (option file_type) :=
  try_except
    (header <- open_read file_path 32 ;;
     if startswith header (lit "GIF87a") || startswith header (lit "GIF89a")
     then ret (Some gif)
     else if startswith header (lit "<!DOCTYPE") || startswith header (lit "<html")
     then ret (Some html)
     else if startswith header (lit "This content is no longer")
     then ret (Some text_error)
     else if startswith header (lit "import ") || startswith header (lit "#!/usr/bin")
             || startswith header (lit "# ")
     then ret (Some text_file)
     else if len_ge header 8 && bool_decide (slice 4 8 header = lit "ftyp")
     then ret (Some mp4)
     else if startswith header EBML_MAGIC
     then ret (Some webm)
     else if startswith header (lit "RIFF") && len_ge header 12
             && bool_decide (slice 8 12 header = lit "AVI ")
     then ret (Some avi)
     else
       chunk <- open_read file_path 256 ;;
       if has_mov_marker chunk
       then ret (Some mov)
       else if startswith header PNG_SIGNATURE
       then ret (Some png)
       else if startswith header JPEG_SOI
       then ret (Some jpeg)
       else if startswith header (lit "RIFF") && len_ge header 12
               && bool_decide (slice 8 12 header = lit "WEBP")
       then ret (Some webp)
       else
         animated <-
           (if startswith header PNG_SHORT
            then content <- open_read file_path 1024 ;;
                 ret (contains (lit "acTL") content)
            else ret false) ;;
         if animated then ret (Some apng) else ret (Some unknown))
    (λ _, ret None).

(** ** [convert_to_gif] (lines 85-107) *)
Definition convert_to_gif (input_path output_path : string) : M Z :=
  let temp_output :=
    if bool_decide (input_path = output_path)
    then Some (output_path +:+ ".tmp.gif") else None in
  let actual_output := default output_path temp_output in
  result <- os_system input_path actual_output ;;
  match temp_output with
  | Some temp =>
      if bool_decide (result = 0)
      then try_except (os_replace temp output_path ;;; ret result) (λ _, ret 1)
      else ret result
  | None => ret result
  end.

(** ** [process_folder] (lines 109-287) *)

(** Lines 195-207 and 211-222: the two conversion branches are the same code. *)
Definition convert_branch (file final_name : string) (r : Run) : M Run :=
  result <- convert_to_gif file final_name ;;
  if bool_decide (result = 0)
  then
    (if bool_decide (file ≠ final_name)
     then try_except (path_unlink file) (λ _, ret ())
     else ret ()) ;;;
    ret (with_stats (incr Converted) r)
  else ret (with_stats (incr Failed) r).

(** Lines 181-191. *)
Definition gif_branch (file final_name : string) (r : Run) : M Run :=
  if bool_decide (file ≠ final_name)
  then try_except
         (path_rename file final_name ;;; ret (with_stats (incr Renamed) r))
         (λ _, ret (with_stats (incr Failed) r))
  else ret (with_stats (incr Skipped) r).

(** The body of [for file in files] (lines 134-224). *)
Definition process_file (file : string) (r : Run) : M Run :=
  file_type <- detect_file_type file ;;
  match file_type with
  | None => ret (with_stats (incr Skipped) r)
  | Some file_type =>
      if bool_decide (file_type = html)
      then ret (with_stats (incr Skipped) (add_html file r))
      else if bool_decide (file_type = text_error)
      then ret (with_stats (incr Skipped) (add_text_error file r))
      else if bool_decide (file_type = text_file)
      then ret (with_stats (incr Skipped) (add_text_file file r))
      else if bool_decide (file_type = unknown)
      then ret (with_stats (incr Skipped) (add_unknown file r))
      else
        let clean_name := clean_filename file in
        fs <- get_files ;;
        let final_name := resolve_name fs file clean_name in
        r' <-
          (if bool_decide (file_type = gif)
           then gif_branch file final_name r
           else if bool_decide (file_type ∈ [mp4; webm; avi; mov])
           then convert_branch file final_name r
           else if bool_decide (file_type ∈ [png; jpeg; webp; apng])
           then convert_branch file final_name r
           else ret r) ;;
        ret (add_processed final_name r')
  end.

(** [for file in files: ...] *)
Fixpoint process_files (listed : list string) (r : Run) : M Run :=
  match listed with
  | [] => ret r
  | file :: rest => r' <- process_file file r ;; process_files rest r'
  end.

(** The loops deleting a bucket (lines 244-250 and 264-270), returning the
    count [deleted]. *)
Fixpoint delete_all (bucket : list string) (deleted : nat) : M nat :=
  match bucket with
  | [] => ret deleted
  | name :: rest =>
      deleted' <- try_except (path_unlink name ;;; ret (S deleted)) (λ _, ret deleted) ;;
      delete_all rest deleted'
  end.

(** Lines 236-253 and 256-273: ask once for a non-empty bucket. *)
Definition review (bucket : list string) : M unit :=
  match bucket with
  | [] => ret ()
  | _ :: _ =>
      reply <- input ;;
      if is_yes reply then delete_all bucket 0 ;;; ret () else ret ()
  end.

(** [[f for f in folder.iterdir() if f.is_file()]].  The order in which the
    operating system lists a folder is not specified; the order of the
    map's enumeration stands for it, and everything below about the loop is
    proved of [process_files] for an arbitrary list. *)
Definition list_files (fs : gmap string entry) : list string :=
  (filter (λ ne, is_file ne.2 = true) (map_to_list fs)).*1.

Definition process_folder : M Outcome := λ w,
  if negb (folder_exists w) then (Ok FolderMissing, w)
  else
    let listed := list_files (files w) in
    match listed with
    | [] => (Ok NoFiles, w)
    | _ :: _ =>
        (r <- process_files listed new_run ;;
         print_summary (stats r) ;;;
         review (html_files r) ;;;
         review (text_error_files r) ;;;
         ret (Finished r)) w
    end.

End Program.


(** ** Concrete environments and folders for the examples *)

Definition GIF_BYTES : bytes := lit "GIF89a" ++ [x01; x00; x01; x00; x00; x00; x00; x3b].

(** Every call succeeds; ffmpeg exits 0 and leaves a GIF; the operator
    answers no. *)
Definition calm : Env :=
  mkEnv (λ _ _, false) (λ _ _ _, false) (λ _ _, false) (λ _ _ _, false)
        (λ _ _ _, (0, Some GIF_BYTES)) (λ _, "n").

(** Every call that can fail does; ffmpeg exits 1 and writes nothing; the
    operator answers yes. *)
Definition hostile : Env :=
  mkEnv (λ _ _, true) (λ _ _ _, true) (λ _ _, true) (λ _ _ _, true)
        (λ _ _ _, (1, None)) (λ _, "y").

(** Files can be read, but nothing can be renamed, replaced or deleted;
    ffmpeg exits 0 and leaves a GIF. *)
Definition read_only : Env :=
  mkEnv (λ _ _, false) (λ _ _ _, true) (λ _ _, true) (λ _ _ _, true)
        (λ _ _ _, (0, Some GIF_BYTES)) (λ _, "n").

(** Files can be read; ffmpeg exits 1 and leaves a truncated output. *)
Definition ffmpeg_fails : Env :=
  mkEnv (λ _ _, false) (λ _ _ _, false) (λ _ _, false) (λ _ _ _, false)
        (λ _ _ _, (1, Some [])) (λ _, "n").

Definition folder (fs : gmap string entry) : World := mkWorld true fs [].

(** An animated PNG: signature, IHDR chunk, then the acTL chunk. *)
Definition APNG_BYTES : bytes :=
  PNG_SIGNATURE
  ++ [x00; x00; x00; x0d] ++ lit "IHDR"
  ++ [x00; x00; x00; x01; x00; x00; x00; x01; x08; x06; x00; x00; x00]
  ++ [x1f; x15; xc4; x89]
  ++ [x00; x00; x00; x08] ++ lit "acTL"
  ++ [x00; x00; x00; x02; x00; x00; x00; x00].

Definition MP4_BYTES : bytes :=
  [x00; x00; x00; x18] ++ lit "ftypmp42" ++ [x00; x00; x00; x00].

Definition HTML_BYTES : bytes := lit "<!DOCTYPE html><html><body>Not found</body></html>".

Definition PNG_BYTES : bytes :=
  PNG_SIGNATURE
  ++ [x00; x00; x00; x0d] ++ lit "IHDR"
  ++ [x00; x00; x00; x01; x00; x00; x00; x01; x08; x06; x00; x00; x00]
  ++ [x1f; x15; xc4; x89].

(** The folder of the specification's end-to-end scenario. *)
Definition scenario : gmap string entry :=
  {[ "a.mp4" := File MP4_BYTES;
     "b.mp4.gif" := File GIF_BYTES;
     "c.webm" := File HTML_BYTES ]}.

(** Only [os.replace] fails; ffmpeg exits 0 and leaves a GIF. *)
Definition replace_blocked : Env :=
  mkEnv (λ _ _, false) (λ _ _ _, false) (λ _ _, false) (λ _ _ _, true)
        (λ _ _ _, (0, Some GIF_BYTES)) (λ _, "n").

(** The types the two conversion branches accept (lines 193 and 209). *)
Definition convertible : list file_type :=
  [mp4; webm; avi; mov; png; jpeg; webp; apng].

(** [path.is_file()] *)
Definition is_file_at (fs : gmap string entry) (path : string) : bool :=
  match fs !! path with
  | Some e => is_file e
  | None => false
  end.

(** ** A folder that is already normalised *)

(** Rule 1 of the detector, on the whole content. *)
Definition has_gif_signature (content : bytes) : bool :=
  startswith content (lit "GIF87a") || startswith content (lit "GIF89a").

(** A regular file is in order when it is a GIF whose name is its own
    target name; other entries are not looked at. *)
Definition entry_normalized (name : string) (e : entry) : bool :=
  match e with
  | File content =>
      has_gif_signature content
      && bool_decide (name = clean_filename name +:+ ".gif")
  | Dir => true
  end.

Definition normalized (fs : gmap string entry) : bool :=
  forallb (λ ne, entry_normalized ne.1 ne.2) (map_to_list fs).

(** The statistics a call printed, if it got that far. *)
Definition summary_of (o : Outcome) : option Stats :=
  match o with
  | Finished r => Some (stats r)
  | FolderMissing | NoFiles => None
  end.

(** A folder that is in order: two GIFs under their target names and a
    subfolder. *)
Definition tidy : gmap string entry :=
  {[ "a.gif" := File GIF_BYTES;
     "b_1.gif" := File (lit "GIF87a" ++ [x3b]);
     "drafts" := Dir ]}.

(** ** Proof steps *)

(** Case analysis on the condition of the first [if] that can be analysed. *)
Ltac case_if :=
  match goal with
  | |- context [if ?b then _ else _] => destruct b eqn:?
  end.

(** A header check that fails on the known leading bytes is discarded. *)
Ltac skip_rule :=
  case_if;
  [ exfalso;
    match goal with H : _ = true |- _ => vm_compute in H; discriminate H end
  | ].


(** * Further definitions *)

(** ** The tag as a function of the content *)

(** Rules 1-7 of [detect_file_type] (lines 11-37), which look at the
    32-byte header only. *)
Definition header_tag (header : bytes) : option file_type :=
  if startswith header (lit "GIF87a") || startswith header (lit "GIF89a")
  then Some gif
  else if startswith header (lit "<!DOCTYPE") || startswith header (lit "<html")
  then Some html
  else if startswith header (lit "This content is no longer")
  then Some text_error
  else if startswith header (lit "import ") || startswith header (lit "#!/usr/bin")
          || startswith header (lit "# ")
  then Some text_file
  else if len_ge header 8 && bool_decide (slice 4 8 header = lit "ftyp")
  then Some mp4
  else if startswith header EBML_MAGIC
  then Some webm
  else if startswith header (lit "RIFF") && len_ge header 12
          && bool_decide (slice 8 12 header = lit "AVI ")
  then Some avi
  else None.

(** The tag [detect_file_type] returns for a file that can be read, from
    its content alone ([detect_file_type_classify] below). *)
Definition classify (content : bytes) : file_type :=
  let header := take 32 content in
  match header_tag header with
  | Some tag => tag
  | None =>
      if has_mov_marker (take 256 content) then mov
      else if startswith header PNG_SIGNATURE then png
      else if startswith header JPEG_SOI then jpeg
      else if startswith header (lit "RIFF") && len_ge header 12
              && bool_decide (slice 8 12 header = lit "WEBP")
      then webp
      else if startswith header PNG_SHORT
              && contains (lit "acTL") (take 1024 content)
      then apng
      else unknown
  end.

(** A truncated PNG signature followed by an animation chunk. *)
Definition BROKEN_APNG_BYTES : bytes :=
  PNG_SHORT ++ [x0a; x1a; x0a] ++ [x00; x00; x00; x08] ++ lit "acTL".

(** A PNG whose image data happens to hold the bytes [mdat]. *)
Definition PNG_WITH_MDAT : bytes := PNG_BYTES ++ lit "mdat".

(** A QuickTime movie with the usual [ftyp] box in front. *)
Definition QUICKTIME_BYTES : bytes :=
  [x00; x00; x00; x14] ++ lit "ftypqt  " ++ [x00; x00; x02; x00] ++ lit "qt  "
  ++ [x00; x00; x00; x08] ++ lit "moov".

(** ** The shape of a cleaned name *)

(** [c in s] *)
Fixpoint has_char (c : ascii) (s : string) : bool :=
  match s with
  | "" => false
  | String a s' => bool_decide (a = c) || has_char c s'
  end.

(** The name consists of dots only. *)
Fixpoint all_dots (s : string) : bool :=
  match s with
  | "" => true
  | String a s' => bool_decide (a = "."%char) && all_dots s'
  end.

(** The part of a name before its first dot. *)
Fixpoint before_dot (s : string) : string :=
  match s with
  | "" => ""
  | String a s' => if bool_decide (a = "."%char) then "" else String a (before_dot s')
  end.

(** The leading dots of a name and what follows them up to the next dot. *)
Fixpoint stem (s : string) : string :=
  match s with
  | "" => ""
  | String a s' => if bool_decide (a = "."%char) then String a (stem s') else before_dot s
  end.

(** ** The buckets of a run *)

(** The four lists of files set aside for the operator. *)
Definition buckets (r : Run) : list string :=
  html_files r ++ text_error_files r ++ text_files r ++ unknown_files r.

(** Every call succeeds; ffmpeg exits 0 and leaves a GIF; the operator
    answers yes. *)
Definition eager : Env :=
  mkEnv (λ _ _, false) (λ _ _ _, false) (λ _ _, false) (λ _ _ _, false)
        (λ _ _ _, (0, Some GIF_BYTES)) (λ _, "y").

(** Every rename and replacement succeeds and ffmpeg exits 0 leaving a GIF.
    Reads succeed, but nothing can be deleted. *)
Definition undeletable : Env :=
  mkEnv (λ _ _, false) (λ _ _ _, false) (λ _ _, true) (λ _ _ _, false)
        (λ _ _ _, (0, Some GIF_BYTES)) (λ _, "y").

(** ** The entry point (lines 289-305) *)

(** The two quote characters. *)
Definition dquote : ascii := "034"%char.
Definition squote : ascii := "039"%char.

(** [c.isspace()] for a character below 256: the control characters 9-13
    and 28-31, the space, and the code points 133 and 160. *)
Definition isspace (c : ascii) : bool :=
  let n := nat_of_ascii c in
  ((9 <=? n) && (n <=? 13) || (28 <=? n) && (n <=? 32)
   || (n =? 133) || (n =? 160))%nat.

(** [s.lstrip(...)]: the leading characters of the set [p] are dropped. *)
Fixpoint lstrip (p : ascii → bool) (s : string) : string :=
  match s with
  | EmptyString => EmptyString
  | String c s' => if p c then lstrip p s' else s
  end.

(** [s.rstrip(...)]: the trailing characters of the set [p] are dropped. *)
Fixpoint rstrip (p : ascii → bool) (s : string) : string :=
  match s with
  | EmptyString => EmptyString
  | String c s' =>
      match rstrip p s' with
      | EmptyString => if p c then EmptyString else String c EmptyString
      | String c' t => String c (String c' t)
      end
  end.

(** [s.strip(...)] scans from the left, then from the right. *)
Definition strip (p : ascii → bool) (s : string) : string := rstrip p (lstrip p s).

(** [s.strip(chars)] *)
Definition strip_chars (chars : string) (s : string) : string :=
  strip (λ c, has_char c chars) s.

(** Lines 290-293: [folder_path = input(...).strip()], and then [strip]
    with the double quote and [strip] with the single quote as the
    characters to remove, as a function of what the operator typed. *)
Definition clean_path (typed : string) : string :=
  strip_chars (String squote EmptyString)
    (strip_chars (String dquote EmptyString) (strip isspace typed)).


(** Every character of [s] is in the set [p]. *)
Fixpoint all_chars (p : ascii → bool) (s : string) : bool :=
  match s with
  | EmptyString => true
  | String c s' => p c && all_chars p s'
  end.

(** [s] begins with a character of the set [p]. *)
Definition starts_in (p : ascii → bool) (s : string) : bool :=
  match s with
  | EmptyString => false
  | String c _ => p c
  end.

(** [s] ends with a character of the set [p]. *)
Fixpoint ends_in (p : ascii → bool) (s : string) : bool :=
  match s with
  | EmptyString => false
  | String c s' =>
      match s' with
      | EmptyString => p c
      | String _ _ => ends_in p s'
      end
  end.

Definition is_dquote (c : ascii) : bool := bool_decide (c = dquote).
Definition is_squote (c : ascii) : bool := bool_decide (c = squote).

(** White space or a quote: what the clean-up of the path can remove. *)
Definition strippable (c : ascii) : bool := isspace c || is_dquote c || is_squote c.

(** * Properties *)

(** ** Strings *)

Lemma app_cons (a : ascii) (s t : string) : String a s +:+ t = String a (s +:+ t).
Proof. reflexivity. Qed.

Lemma app_length (s t : string) :
  String.length (s +:+ t) = (String.length s + String.length t)%nat.
Proof. induction s as [|a s IH]; [done|]. rewrite app_cons. simpl. by rewrite IH. Qed.

Lemma app_inj_r (t s1 s2 : string) : s1 +:+ t = s2 +:+ t → s1 = s2.
Proof.
  revert s2. induction s1 as [|a s1 IH]; intros [|b s2] H; try done.
  - apply (f_equal String.length) in H. rewrite !app_length in H. simpl in H. lia.
  - apply (f_equal String.length) in H. rewrite !app_length in H. simpl in H. lia.
  - rewrite !app_cons in H. injection H as -> H. f_equal. by apply IH.
Qed.

Lemma str_take_drop (n : nat) (s : string) : str_take n s +:+ str_drop n s = s.
Proof.
  revert s. induction n as [|n IH]; intros [|a s]; try done.
  simpl. rewrite app_cons. by rewrite IH.
Qed.

Lemma str_take_length (n : nat) (s : string) :
  String.length (str_take n s) = (n `min` String.length s)%nat.
Proof.
  revert s. induction n as [|n IH]; intros [|a s]; try done.
  simpl. by rewrite IH.
Qed.

Lemma rfind_go_bounds (c : ascii) (s : string) (i last : Z) :
  rfind_go c s i last = last
  ∨ i ≤ rfind_go c s i last < i + Z.of_nat (String.length s).
Proof.
  revert i last. induction s as [|a s IH]; intros i last; [by left|].
  cbn [rfind_go String.length].
  destruct (IH (i + 1) (if bool_decide (a = c) then i else last)) as [->|?].
  - case_bool_decide; [right; lia | by left].
  - right. lia.
Qed.

Lemma rfind_bounds (s : string) (c : ascii) :
  -1 ≤ rfind s c < Z.of_nat (String.length s).
Proof.
  unfold rfind. destruct (rfind_go_bounds c s 0 (-1)) as [->|?]; lia.
Qed.

(** ** [splitext] and [clean_filename] *)

(** Python documents [root + ext == p] for [os.path.splitext]. *)
Lemma splitext_app (p root ext : string) :
  splitext p = (root, ext) → root +:+ ext = p.
Proof.
  unfold splitext. case_match; intros [= <- <-].
  - apply str_take_drop.
  - clear. induction p as [|a p IH]; [done|]. rewrite app_cons. by rewrite IH.
Qed.

Lemma splitext_shorter (p root ext : string) :
  splitext p = (root, ext) → ext ≠ "" →
  (String.length root < String.length p)%nat.
Proof.
  unfold splitext. case_match eqn:Hc; intros [= <- <-] Hext; [|done].
  apply andb_prop in Hc as [Hgt%bool_decide_eq_true _].
  rewrite str_take_length.
  pose proof (rfind_bounds p "/"). pose proof (rfind_bounds p "."). lia.
Qed.

Lemma clean_loop_terminates (fuel : nat) (name : string) :
  (String.length name < fuel)%nat →
  ∃ base, clean_loop fuel name = Some base ∧ (splitext base).2 = "".
Proof.
  revert name. induction fuel as [|fuel IH]; intros name Hlen; [lia|].
  cbn [clean_loop]. destruct (splitext name) as [name_part ext] eqn:Hsplit.
  case_bool_decide as Hext.
  - apply IH. pose proof (splitext_shorter _ _ _ Hsplit Hext). lia.
  - exists name. split; [done|]. rewrite Hsplit. simpl.
    destruct (decide (ext = "")); [done|]. by destruct Hext.
Qed.

(** More fuel does not change the result. *)
Lemma clean_loop_mono (fuel fuel' : nat) (name base : string) :
  clean_loop fuel name = Some base → (fuel ≤ fuel')%nat →
  clean_loop fuel' name = Some base.
Proof.
  revert fuel' name. induction fuel as [|fuel IH]; intros fuel' name H Hle; [done|].
  destruct fuel' as [|fuel']; [lia|].
  cbn [clean_loop] in *. destruct (splitext name) as [name_part ext].
  case_bool_decide; [|done]. apply IH; [done|lia].
Qed.

Lemma clean_filename_loop (filename : string) :
  clean_loop (S (String.length filename)) filename = Some (clean_filename filename).
Proof.
  unfold clean_filename.
  destruct (clean_loop_terminates (S (String.length filename)) filename) as (b & -> & _);
    [lia|done].
Qed.

(** The loop, as an equation on the result. *)
Lemma clean_filename_unfold (filename : string) :
  clean_filename filename =
    if bool_decide ((splitext filename).2 ≠ "")
    then clean_filename (splitext filename).1
    else filename.
Proof.
  pose proof (clean_filename_loop filename) as H.
  cbn [clean_loop] in H. destruct (splitext filename) as [name_part ext] eqn:Hsplit.
  simpl. case_bool_decide as Hext.
  - pose proof (clean_filename_loop name_part) as H'.
    pose proof (splitext_shorter _ _ _ Hsplit Hext).
    eapply clean_loop_mono in H'; [|reflexivity].
    assert (clean_loop (String.length filename) name_part = Some (clean_filename name_part)) as H2.
    { destruct (clean_loop_terminates (String.length filename) name_part) as (b & Hb & _); [lia|].
      rewrite Hb. f_equal.
      eapply clean_loop_mono with (fuel' := S (String.length filename)) in Hb; [|lia].
      eapply clean_loop_mono with (fuel' := S (String.length filename)) in H'; [|lia].
      congruence. }
    congruence.
  - congruence.
Qed.

(** C7. [clean_filename] (the spec's stripExtensions) runs its loop to the
    end for every name (as many iterations as the name has characters
    suffice), removes the trailing extension as long as [os.path.splitext]
    finds one, and returns a name in which [splitext] finds no extension;
    ["clip.mp4.tmp"] gives ["clip"] and ["noext"] gives ["noext"]. *)
Theorem clean_filename_strips_all_extensions :
  (∀ name : string,
      clean_loop (S (String.length name)) name = Some (clean_filename name)
      ∧ (splitext (clean_filename name)).2 = ""
      ∧ clean_filename name =
          if bool_decide ((splitext name).2 ≠ "")
          then clean_filename (splitext name).1
          else name)
  ∧ clean_filename "clip.mp4.tmp" = "clip"
  ∧ clean_filename "noext" = "noext".
Proof.
  split; [|split; reflexivity].
  intros name. split; [apply clean_filename_loop|]. split; [|apply clean_filename_unfold].
  pose proof (clean_filename_loop name) as H.
  destruct (clean_loop_terminates (S (String.length name)) name) as (b & Hb & Hnone); [lia|].
  congruence.
Qed.

(** ** The name-conflict loop *)

Lemma numbered_inj (clean_name : string) : Inj (=) (=) (numbered clean_name).
Proof.
  intros n m H. unfold numbered in H.
  apply String.app_inj in H. apply String.app_inj in H.
  apply app_inj_r in H. by apply pretty_nat_inj in H.
Qed.

Lemma candidate_inj (clean_name : string) : Inj (=) (=) (candidate clean_name).
Proof.
  intros [|n] [|m] H; simpl in H; try done.
  - unfold numbered in H. apply String.app_inj in H. done.
  - unfold numbered in H. apply String.app_inj in H. done.
  - by apply numbered_inj in H.
Qed.

(** Among the first [size fs + 1] candidates one is not in the folder. *)
Lemma candidate_free (fs : gmap string entry) (clean_name : string) :
  ∃ j, (j ≤ size fs)%nat ∧ fs !! candidate clean_name j = None.
Proof.
  destruct (decide (Forall (λ k, is_Some (fs !! candidate clean_name k))
                           (seq 0 (S (size fs))))) as [Hall|Hex].
  - exfalso.
    assert (list_to_set (candidate clean_name <$> seq 0 (S (size fs))) ⊆ dom fs) as Hsub.
    { intros x Hx. apply elem_of_list_to_set in Hx.
      apply list_elem_of_fmap in Hx as (k & -> & Hk).
      apply elem_of_dom. rewrite Forall_forall in Hall. by apply Hall. }
    apply subseteq_size in Hsub. rewrite size_dom in Hsub.
    rewrite size_list_to_set in Hsub.
    + rewrite length_fmap, length_seq in Hsub. lia.
    + apply NoDup_fmap; [apply candidate_inj | apply NoDup_seq].
  - apply not_Forall_Exists in Hex; [|intros k; apply _].
    apply Exists_exists in Hex as (j & Hj & Hnone).
    apply elem_of_seq in Hj. exists j. split; [lia|].
    by apply eq_None_not_Some.
Qed.

Lemma least_false (P : nat → bool) (n : nat) :
  P n = false → ∃ j, (j ≤ n)%nat ∧ P j = false ∧ ∀ i, (i < j)%nat → P i = true.
Proof.
  induction n as [n IH] using lt_wf_ind. intros Hn.
  destruct (decide (Forall (λ i, P i = true) (seq 0 n))) as [Hall|Hex].
  - exists n. split; [lia|]. split; [done|]. intros i Hi.
    rewrite Forall_forall in Hall. apply Hall, elem_of_seq. lia.
  - apply not_Forall_Exists in Hex; [|intros k; apply _].
    apply Exists_exists in Hex as (m & Hm & Hfalse).
    apply elem_of_seq in Hm. apply not_true_is_false in Hfalse.
    destruct (IH m) as (j & ? & ? & ?); [lia|done|].
    exists j. split; [lia|done].
Qed.

(** The loop, entered at candidate [k], stops at the first candidate from
    [k] on that is not taken, provided the fuel reaches that far. *)
Lemma conflict_loop_stops (fs : gmap string entry) (file clean_name : string)
    (fuel k j : nat) :
  (k ≤ j ≤ k + fuel)%nat →
  taken fs file (candidate clean_name j) = false →
  (∀ i, (k ≤ i < j)%nat → taken fs file (candidate clean_name i) = true) →
  conflict_loop fuel fs file clean_name (candidate clean_name k) (S k)
  = Some (candidate clean_name j).
Proof.
  revert k. induction fuel as [|fuel IH]; intros k Hk Hfree Hbusy.
  - assert (j = k) as -> by lia. simpl. fold (taken fs file (candidate clean_name k)).
    by rewrite Hfree.
  - cbn [conflict_loop]. fold (taken fs file (candidate clean_name k)).
    destruct (decide (k = j)) as [->|Hne].
    + by rewrite Hfree.
    + rewrite Hbusy by lia. change (numbered clean_name (S k)) with (candidate clean_name (S k)).
      apply IH; [lia|done|]. intros i Hi. apply Hbusy. lia.
Qed.

(** The first candidate that is not taken, and the loop's result for every
    fuel from [size fs] on. *)
Lemma conflict_loop_result (fs : gmap string entry) (file clean_name : string) :
  ∃ j, (j ≤ size fs)%nat
       ∧ taken fs file (candidate clean_name j) = false
       ∧ (∀ i, (i < j)%nat → taken fs file (candidate clean_name i) = true)
       ∧ ∀ fuel, (size fs ≤ fuel)%nat →
           conflict_loop fuel fs file clean_name (clean_name +:+ ".gif") 1
           = Some (candidate clean_name j).
Proof.
  destruct (candidate_free fs clean_name) as (j0 & Hj0 & Hnone).
  destruct (least_false (λ k, taken fs file (candidate clean_name k)) j0)
    as (j & Hj & Hfree & Hbusy).
  { unfold taken, path_exists. rewrite Hnone.
    rewrite bool_decide_eq_false_2; [done|]. by intros [? ?]. }
  exists j. split; [lia|]. split; [done|]. split; [done|].
  intros fuel Hfuel. change (clean_name +:+ ".gif") with (candidate clean_name 0).
  apply conflict_loop_stops; [lia|done|]. intros i Hi. apply Hbusy. lia.
Qed.

Lemma resolve_name_result (fs : gmap string entry) (file clean_name : string) :
  ∃ j, resolve_name fs file clean_name = candidate clean_name j
       ∧ (j ≤ size fs)%nat
       ∧ taken fs file (candidate clean_name j) = false
       ∧ ∀ i, (i < j)%nat → taken fs file (candidate clean_name i) = true.
Proof.
  destruct (conflict_loop_result fs file clean_name) as (j & Hj & Hfree & Hbusy & Hloop).
  exists j. unfold resolve_name. rewrite Hloop by lia. done.
Qed.

Lemma taken_false (fs : gmap string entry) (file name : string) :
  taken fs file name = false ↔ (fs !! name = None ∨ name = file).
Proof.
  unfold taken, path_exists. rewrite andb_false_iff, !bool_decide_eq_false.
  rewrite <-eq_None_not_Some. split.
  - intros [?|Hnn]; [by left|right]. by destruct (decide (name = file)).
  - intros [?|?]; [by left|right]. by intros ?.
Qed.

Lemma taken_true (fs : gmap string entry) (file name : string) :
  taken fs file name = true ↔ (is_Some (fs !! name) ∧ name ≠ file).
Proof.
  unfold taken, path_exists. by rewrite andb_true_iff, !bool_decide_eq_true.
Qed.

(** C4. Target resolution tries [base.gif], then [base_1.gif],
    [base_2.gif], ... in this order, and returns the first of these names
    at which no entry exists or which is the source file itself.  The
    returned name is therefore never an existing entry other than the
    source; and when [a.gif] and [a_1.gif] exist, neither is the source,
    and [a_2.gif] is free (or is the source), base [a] resolves to
    [a_2.gif]. *)
Theorem resolve_name_first_free (fs : gmap string entry) (file : string) :
  (∀ clean_name,
      candidate clean_name 0 = clean_name +:+ ".gif"
      ∧ (∀ n, candidate clean_name (S n)
              = clean_name +:+ "_" +:+ pretty (S n) +:+ ".gif")
      ∧ ∃ j, resolve_name fs file clean_name = candidate clean_name j
             ∧ (fs !! candidate clean_name j = None ∨ candidate clean_name j = file)
             ∧ ∀ i, (i < j)%nat →
                 is_Some (fs !! candidate clean_name i) ∧ candidate clean_name i ≠ file)
  ∧ (∀ clean_name,
      is_Some (fs !! resolve_name fs file clean_name) →
      resolve_name fs file clean_name = file)
  ∧ (is_Some (fs !! "a.gif") → is_Some (fs !! "a_1.gif") →
     file ≠ "a.gif" → file ≠ "a_1.gif" →
     fs !! "a_2.gif" = None ∨ file = "a_2.gif" →
     resolve_name fs file "a" = "a_2.gif").
Proof.
  split; [|split].
  - intros clean_name. split; [done|]. split; [done|].
    destruct (resolve_name_result fs file clean_name) as (j & Hres & _ & Hfree & Hbusy).
    exists j. split; [done|]. split; [by apply taken_false|].
    intros i Hi. by apply taken_true, Hbusy.
  - intros clean_name Hsome.
    destruct (resolve_name_result fs file clean_name) as (j & Hres & _ & Hfree & _).
    rewrite Hres in *. apply taken_false in Hfree as [Hnone|?]; [|done].
    rewrite Hnone in Hsome. by destruct Hsome.
  - intros Ha Ha1 Hne Hne1 Ha2.
    destruct (resolve_name_result fs file "a") as (j & Hres & _ & Hfree & Hbusy).
    rewrite Hres. destruct (decide (j = 2%nat)) as [->|Hj]; [done|].
    exfalso. destruct (decide (j < 2)%nat) as [Hlt|Hge].
    + apply taken_false in Hfree.
      assert (j = 0%nat ∨ j = 1%nat) as [-> | ->] by lia.
      * change (candidate "a" 0%nat) with "a.gif" in Hfree.
        destruct Hfree as [Hnone|?]; [|done]. rewrite Hnone in Ha. by destruct Ha.
      * change (candidate "a" 1%nat) with "a_1.gif" in Hfree.
        destruct Hfree as [Hnone|?]; [|done]. rewrite Hnone in Ha1. by destruct Ha1.
    + assert (taken fs file (candidate "a" 2%nat) = true) as Ht by (apply Hbusy; lia).
      apply taken_true in Ht as [Hsome Hnf].
      change (candidate "a" 2%nat) with "a_2.gif" in *.
      destruct Ha2 as [Hnone|?]; [|done]. rewrite Hnone in Hsome. by destruct Hsome.
Qed.

Lemma resolve_name_first_free_witness :
  resolve_name {["a.gif" := File GIF_BYTES; "a_1.gif" := File GIF_BYTES;
                 "a.mp4" := File MP4_BYTES]} "a.mp4" "a" = "a_2.gif"
  ∧ resolve_name {["clip.gif" := File GIF_BYTES]} "clip.gif" "clip" = "clip.gif".
Proof.
  split.
  - destruct (resolve_name_first_free
                {["a.gif" := File GIF_BYTES; "a_1.gif" := File GIF_BYTES;
                  "a.mp4" := File MP4_BYTES]} "a.mp4") as (_ & _ & Hexample).
    apply Hexample.
    + exists (File GIF_BYTES). reflexivity.
    + exists (File GIF_BYTES). reflexivity.
    + discriminate.
    + discriminate.
    + left. reflexivity.
  - destruct (resolve_name_first_free {["clip.gif" := File GIF_BYTES]} "clip.gif")
      as (_ & Hexisting & _).
    apply (Hexisting "clip").
    exists (File GIF_BYTES). reflexivity.
Defined.

(** C10. For every (finite) folder the name-conflict loop terminates: the
    candidate names carry the suffixes 1, 2, 3, ... and are pairwise
    different, so at most [size fs] of them can exist; after [j <= size fs]
    iterations the loop stops, at a name that does not exist or is the
    source file's own, and any larger iteration budget gives the same
    name. *)
Theorem conflict_loop_terminates (fs : gmap string entry) (file clean_name : string) :
  (∀ i k, candidate clean_name i = candidate clean_name k → i = k)
  ∧ ∃ j, (j ≤ size fs)%nat
         ∧ (fs !! candidate clean_name j = None ∨ candidate clean_name j = file)
         ∧ ∀ fuel, (size fs ≤ fuel)%nat →
             conflict_loop fuel fs file clean_name (clean_name +:+ ".gif") 1
             = Some (candidate clean_name j).
Proof.
  split; [apply candidate_inj|].
  destruct (conflict_loop_result fs file clean_name) as (j & Hj & Hfree & _ & Hloop).
  exists j. split; [done|]. split; [by apply taken_false|done].
Qed.

(** ** System calls *)

Section Calls.

Context (env : Env).

Lemma open_read_world (path : string) (n : nat) (w : World) :
  (open_read env path n w).2 = record (EvOpen path) w.
Proof. unfold open_read. by repeat case_match. Qed.

Lemma open_read_ok (path : string) (n : nat) (w : World) (content : bytes) :
  files w !! path = Some (File content) →
  open_fails env w path = false →
  open_read env path n w = (Ok (take n content), record (EvOpen path) w).
Proof. intros Hf Ho. unfold open_read. by rewrite Hf, Ho. Qed.

Lemma open_read_result (path : string) (n : nat) (w : World) :
  ∃ res, open_read env path n w = (res, record (EvOpen path) w).
Proof.
  exists (open_read env path n w).1. rewrite <-(open_read_world path n w).
  by destruct (open_read env path n w).
Qed.

(** What [detect_file_type] does to the world: it opens [file_path] once,
    twice or three times and changes nothing. *)
Lemma detect_file_type_world (path : string) (w : World) :
  ∃ t k, detect_file_type env path w
         = (Ok t, Nat.iter (S k) (record (EvOpen path)) w).
Proof.
  unfold detect_file_type, try_except, bind.
  destruct (open_read_result path 32 w) as [[header|e] ->]; [|by exists None, 0%nat].
  repeat (case_if; [by eexists _, 0%nat|]).
  destruct (open_read_result path 256 (record (EvOpen path) w)) as [[chunk|e] ->];
    [|by exists None, 1%nat].
  repeat (case_if; [by eexists _, 1%nat|]).
  case_if.
  - destruct (open_read_result path 1024 (record (EvOpen path) (record (EvOpen path) w)))
      as [[content|e] ->]; [|by exists None, 2%nat].
    unfold ret. case_if; by eexists _, 2%nat.
  - by eexists _, 1%nat.
Qed.

End Calls.

(** ** [detect_file_type] *)

Section Detect.

Context (env : Env).

Lemma startswith_app (s p : bytes) :
  startswith s p = true ↔ ∃ rest, s = p ++ rest.
Proof.
  revert s. induction p as [|b p IH]; intros s.
  - split; [intros _; by exists s|done].
  - destruct s as [|a s]; simpl.
    + split; [done|]. by intros [? ?].
    + rewrite andb_true_iff, bool_decide_eq_true, IH. split.
      * intros [-> [rest ->]]. by exists rest.
      * intros [rest [= -> ->]]. split; [done|]. by exists rest.
Qed.

(** A file that can be read always gets a tag. *)
Lemma detect_file_type_readable (path : string) (w : World) (content : bytes) :
  files w !! path = Some (File content) →
  (∀ w', open_fails env w' path = false) →
  ∃ tag, (detect_file_type env path w).1 = Ok (Some tag).
Proof.
  intros Hf Ho. unfold detect_file_type, try_except, bind.
  rewrite (open_read_ok env path 32 w _ Hf (Ho _)).
  repeat (case_if; [by eexists|]).
  rewrite (open_read_ok env path 256 (record (EvOpen path) w) content Hf (Ho _)).
  repeat (case_if; [by eexists|]).
  case_if; [|by eexists].
  rewrite (open_read_ok env path 1024 (record (EvOpen path) (record (EvOpen path) w)) content Hf (Ho _)).
  unfold ret. case_if; by eexists.
Qed.

(** Rule 9 as the code has it: the 8-byte signature gives [png], whatever
    the rest of the file holds, once rule 8 has not fired. *)
Lemma detect_file_type_png (path : string) (w : World) (content : bytes) :
  files w !! path = Some (File content) →
  (∀ w', open_fails env w' path = false) →
  startswith content PNG_SIGNATURE = true →
  has_mov_marker (take 256 content) = false →
  (detect_file_type env path w).1 = Ok (Some png).
Proof.
  intros Hf Ho [rest ->]%startswith_app Hmov.
  unfold detect_file_type, try_except, bind.
  rewrite (open_read_ok env path 32 w _ Hf (Ho _)).
  do 7 skip_rule.
  rewrite (open_read_ok env path 256 (record (EvOpen path) w) _ Hf (Ho _)). rewrite Hmov.
  case_if; [done|].
  match goal with H : _ = false |- _ => vm_compute in H; discriminate H end.
Qed.

(** A zero-byte file matches no rule. *)
Lemma detect_file_type_empty (path : string) (w : World) :
  files w !! path = Some (File []) →
  (∀ w', open_fails env w' path = false) →
  detect_file_type env path w
  = (Ok (Some unknown), record (EvOpen path) (record (EvOpen path) w)).
Proof.
  intros Hf Ho. unfold detect_file_type, try_except, bind.
  rewrite (open_read_ok env path 32 w _ Hf (Ho _)).
  change (take 32 []) with (@nil byte). do 7 skip_rule.
  rewrite (open_read_ok env path 256 (record (EvOpen path) w) _ Hf (Ho _)).
  reflexivity.
Qed.

Lemma open_read_inv (path : string) (n : nat) (w w' : World) (data : bytes) :
  open_read env path n w = (Ok data, w') →
  ∃ content, files w !! path = Some (File content) ∧ data = take n content.
Proof.
  unfold open_read. intros H. repeat case_match; simplify_eq. by eexists.
Qed.

(** A file with a GIF signature is tagged [gif] after one read, unless the
    read fails. *)
Lemma detect_file_type_gif (path : string) (w : World) (content : bytes) :
  files w !! path = Some (File content) →
  startswith content (lit "GIF87a") || startswith content (lit "GIF89a") = true →
  ∃ t, detect_file_type env path w = (Ok t, record (EvOpen path) w)
       ∧ (t = Some gif ∨ t = None).
Proof.
  intros Hf Hgif. unfold detect_file_type, try_except, bind.
  destruct (open_read_result env path 32 w) as [[header|e] Hr]; rewrite Hr;
    [|exists None; by split; [|right]].
  apply open_read_inv in Hr as (content' & Hf' & ->).
  rewrite Hf in Hf'. injection Hf' as <-.
  assert (startswith (take 32 content) (lit "GIF87a")
          || startswith (take 32 content) (lit "GIF89a") = true) as ->.
  { apply orb_true_iff in Hgif as [[rest ->]%startswith_app|[rest ->]%startswith_app];
      reflexivity. }
  exists (Some gif). by split; [|left].
Qed.

End Detect.

(** ** Effects of the calls on the log *)

Section Effects.

Context (env : Env).

Lemma iter_record_log (ev : event) (k : nat) (w : World) :
  log (Nat.iter k (record ev) w) = replicate k ev ++ log w.
Proof. induction k as [|k IH]; [done|]. simpl. by rewrite IH. Qed.

Lemma iter_record_files (ev : event) (k : nat) (w : World) :
  files (Nat.iter k (record ev) w) = files w.
Proof. induction k as [|k IH]; [done|]. simpl. by rewrite IH. Qed.

Lemma iter_record_suffix (ev : event) (k : nat) (w : World) :
  (ev :: log w) `suffix_of` log (Nat.iter (S k) (record ev) w).
Proof.
  rewrite iter_record_log. exists (replicate k ev).
  change (ev :: log w) with ([ev] ++ log w). rewrite app_assoc. f_equal.
  change [ev] with (replicate 1 ev). rewrite <-replicate_add. f_equal. lia.
Qed.

Lemma os_system_result (input output : string) (w : World) :
  ∃ status w', os_system env input output w = (Ok status, w')
               ∧ log w' = EvSystem input output :: log w.
Proof. unfold os_system. destruct (ffmpeg env w input output). by eexists _, _. Qed.

Lemma os_replace_log (src dst : string) (w : World) :
  log (os_replace env src dst w).2 = EvReplace src dst :: log w.
Proof. unfold os_replace. by repeat case_match. Qed.

Lemma path_rename_log (src dst : string) (w : World) :
  log (path_rename env src dst w).2 = EvRename src dst :: log w.
Proof. unfold path_rename. by repeat case_match. Qed.

Lemma path_unlink_log (path : string) (w : World) :
  log (path_unlink env path w).2 = EvUnlink path :: log w.
Proof. unfold path_unlink. by repeat case_match. Qed.

(** [convert_to_gif] raises nothing and only adds to the log. *)
Lemma convert_to_gif_total (input_path output_path : string) (w : World) :
  ∃ result w', convert_to_gif env input_path output_path w = (Ok result, w')
               ∧ log w `suffix_of` log w'.
Proof.
  unfold convert_to_gif, bind, try_except.
  destruct (os_system_result input_path
              (default output_path
                 (if bool_decide (input_path = output_path)
                  then Some (output_path +:+ ".tmp.gif") else None)) w)
    as (status & w1 & -> & Hlog).
  assert (log w `suffix_of` log w1) as Hs1 by (rewrite Hlog; by apply suffix_cons_r).
  case_bool_decide; [|by eexists _, _].
  case_bool_decide; [|by eexists _, _].
  pose proof (os_replace_log (output_path +:+ ".tmp.gif") output_path w1) as Hrep.
  destruct (os_replace env (output_path +:+ ".tmp.gif") output_path w1) as [[[]|e] w2];
    simpl in Hrep; eexists _, _; (split; [reflexivity|]);
    (etrans; [exact Hs1|]); rewrite Hrep; by apply suffix_cons_r.
Qed.

(** Either conversion branch ends normally, with [converted] or [failed]
    incremented. *)
Lemma convert_branch_total (file final_name : string) (r : Run) (w : World) :
  ∃ key w', convert_branch env file final_name r w
            = (Ok (with_stats (incr key) r), w')
            ∧ (key = Converted ∨ key = Failed)
            ∧ log w `suffix_of` log w'.
Proof.
  unfold convert_branch, bind, try_except.
  destruct (convert_to_gif_total file final_name w) as (result & w1 & -> & Hs1).
  case_bool_decide; [|exists Failed, w1; by split; [|split; [right|]]].
  case_bool_decide.
  - pose proof (path_unlink_log file w1) as Hun.
    destruct (path_unlink env file w1) as [[[]|e] w2]; simpl in Hun;
      exists Converted; eexists; (split; [reflexivity|]); (split; [by left|]);
      (etrans; [exact Hs1|]); rewrite Hun; by apply suffix_cons_r.
  - exists Converted, w1. by split; [|split; [left|]].
Qed.

(** The GIF branch ends normally, with [renamed], [failed] or [skipped]
    incremented. *)
Lemma gif_branch_total (file final_name : string) (r : Run) (w : World) :
  ∃ key w', gif_branch env file final_name r w
            = (Ok (with_stats (incr key) r), w')
            ∧ log w `suffix_of` log w'.
Proof.
  unfold gif_branch, bind, try_except.
  case_bool_decide; [|by exists Skipped, w].
  pose proof (path_rename_log file final_name w) as Hren.
  destruct (path_rename env file final_name w) as [[[]|e] w1]; simpl in Hren.
  - exists Renamed, w1. split; [done|]. rewrite Hren. by apply suffix_cons_r.
  - exists Failed, w1. split; [done|]. rewrite Hren. by apply suffix_cons_r.
Qed.

(** The loop body ends normally for every file and every environment:
    one counter goes up by one, and the file has been opened. *)
Lemma process_file_total (file : string) (r : Run) (w : World) :
  ∃ key r' w', process_file env file r w = (Ok r', w')
               ∧ stats r' = incr key (stats r)
               ∧ (EvOpen file :: log w) `suffix_of` log w'.
Proof.
  unfold process_file, bind.
  destruct (detect_file_type_world env file w) as (t & k & ->).
  pose proof (iter_record_suffix (EvOpen file) k w) as Hs.
  destruct t as [file_type|]; [|by exists Skipped; eexists _, _].
  repeat (case_bool_decide; [by exists Skipped; eexists _, _|]).
  unfold get_files.
  set (w1 := Nat.iter (S k) (record (EvOpen file)) w) in *.
  set (final_name := resolve_name (files w1) file (clean_filename file)).
  case_bool_decide.
  { destruct (gif_branch_total file final_name r w1) as (key & w2 & -> & Hs2).
    exists key. eexists _, _. split; [reflexivity|]. split; [done|]. by etrans. }
  case_bool_decide.
  { destruct (convert_branch_total file final_name r w1) as (key & w2 & -> & _ & Hs2).
    exists key. eexists _, _. split; [reflexivity|]. split; [done|]. by etrans. }
  case_bool_decide.
  { destruct (convert_branch_total file final_name r w1) as (key & w2 & -> & _ & Hs2).
    exists key. eexists _, _. split; [reflexivity|]. split; [done|]. by etrans. }
  destruct file_type; try done;
    match goal with H : ¬ _ |- _ => by (exfalso; apply H; set_solver) end.
Qed.

End Effects.

(** ** The loop over the listed files, and the whole run *)

Section Run.

Context (env : Env).

Lemma count_incr (key key' : counter) (s : Stats) :
  count key' (incr key s)
  = if decide (key' = key) then S (count key' s) else count key' s.
Proof. by destruct key, key'. Qed.

Lemma total_incr (key : counter) (s : Stats) : total (incr key s) = S (total s).
Proof. destruct key; unfold total; simpl; lia. Qed.

Lemma incr_inj (key key' : counter) (s : Stats) : incr key s = incr key' s → key = key'.
Proof.
  destruct s as [c n k f].
  destruct key, key'; simpl; intros [= ]; try done; lia.
Qed.

Lemma process_files_total (listed : list string) (r : Run) (w : World) :
  ∃ r' w', process_files env listed r w = (Ok r', w')
           ∧ total (stats r') = (total (stats r) + length listed)%nat
           ∧ (∀ key, (count key (stats r) ≤ count key (stats r'))%nat)
           ∧ log w `suffix_of` log w'
           ∧ ∀ file, file ∈ listed → EvOpen file ∈ log w'.
Proof.
  revert r w. induction listed as [|file rest IH]; intros r w.
  - exists r, w. split; [done|]. split; [simpl; lia|]. split; [done|]. split; [done|].
    intros file Hin. by apply elem_of_nil in Hin.
  - cbn [process_files]. unfold bind.
    destruct (process_file_total env file r w) as (key & r1 & w1 & -> & Hst & Hs1).
    destruct (IH r1 w1) as (r' & w' & -> & Htot & Hmono & Hs & Hopen).
    exists r', w'. split; [done|]. split.
    { rewrite Htot, Hst, total_incr. simpl. lia. }
    split.
    { intros key'. etrans; [|apply Hmono]. rewrite Hst, count_incr. case_decide; lia. }
    split.
    { etrans; [|exact Hs]. etrans; [|exact Hs1]. by apply suffix_cons_r. }
    intros f [->|Hin]%elem_of_cons; [|by apply Hopen].
    destruct Hs as [evs ->]. destruct Hs1 as [evs1 ->]. set_solver.
Qed.

Lemma delete_all_total (bucket : list string) (deleted : nat) (w : World) :
  ∃ deleted' w', delete_all env bucket deleted w = (Ok deleted', w')
                 ∧ log w `suffix_of` log w'.
Proof.
  revert deleted w. induction bucket as [|name rest IH]; intros deleted w.
  - by exists deleted, w.
  - cbn [delete_all]. unfold bind, try_except.
    pose proof (path_unlink_log env name w) as Hun.
    destruct (path_unlink env name w) as [[[]|e] w1]; simpl in Hun; unfold ret; simpl.
    + destruct (IH (S deleted) w1) as (d & w' & -> & Hs). exists d, w'.
      split; [done|]. etrans; [|exact Hs]. rewrite Hun. by apply suffix_cons_r.
    + destruct (IH deleted w1) as (d & w' & -> & Hs). exists d, w'.
      split; [done|]. etrans; [|exact Hs]. rewrite Hun. by apply suffix_cons_r.
Qed.

Lemma review_total (bucket : list string) (w : World) :
  ∃ w', review env bucket w = (Ok (), w') ∧ log w `suffix_of` log w'.
Proof.
  destruct bucket as [|name rest]; [by exists w|].
  unfold review, bind, input. case_if; [|eexists; split; [done|by apply suffix_cons_r]].
  destruct (delete_all_total (name :: rest) 0 (record EvInput w)) as (d & w' & -> & Hs).
  exists w'. split; [done|]. etrans; [|exact Hs]. by apply suffix_cons_r.
Qed.

(** A run on an existing folder with at least one regular file goes through
    every listed file, prints the summary and ends normally. *)
Lemma process_folder_finishes (w : World) :
  folder_exists w = true →
  list_files (files w) ≠ [] →
  ∃ r w', process_folder env w = (Ok (Finished r), w')
          ∧ total (stats r) = length (list_files (files w))
          ∧ EvSummary (stats r) ∈ log w'
          ∧ ∀ file, file ∈ list_files (files w) → EvOpen file ∈ log w'.
Proof.
  intros Hex Hne. unfold process_folder. rewrite Hex. simpl.
  destruct (list_files (files w)) as [|file rest] eqn:Hl; [done|].
  unfold bind.
  destruct (process_files_total (file :: rest) new_run w)
    as (r & w1 & -> & Htot & _ & Hs1 & Hopen).
  unfold print_summary.
  destruct (review_total (html_files r) (record (EvSummary (stats r)) w1))
    as (w2 & -> & Hs2).
  destruct (review_total (text_error_files r) w2) as (w3 & -> & Hs3).
  exists r, w3. split; [done|]. split; [exact Htot|].
  destruct Hs3 as [e3 ->]. destruct Hs2 as [e2 ->]. simpl. split; [set_solver|].
  intros f Hf. apply Hopen in Hf. set_solver.
Qed.

End Run.

(** * The claims *)

(** C1 (the code departs from the claim). A readable file that starts with
    the 8-byte PNG signature and has an [acTL] marker within its first 1024
    bytes (and none of the QuickTime markers of rule 8 within its first
    256) is tagged [png], not [apng]: the test for the full signature at
    line 46 returns before the animated-PNG test at line 58 is reached. *)
Theorem detect_file_type_png_shadows_apng (env : Env) (path : string)
    (w : World) (content : bytes) :
  files w !! path = Some (File content) →
  (∀ w', open_fails env w' path = false) →
  startswith content PNG_SIGNATURE = true →
  contains (lit "acTL") (take 1024 content) = true →
  has_mov_marker (take 256 content) = false →
  (detect_file_type env path w).1 = Ok (Some png).
Proof. intros Hf Ho Hsig _ Hmov. by eapply detect_file_type_png. Qed.

Lemma detect_file_type_png_shadows_apng_witness :
  (detect_file_type calm "anim.png" (folder {["anim.png" := File APNG_BYTES]})).1
  = Ok (Some png).
Proof.
  apply (detect_file_type_png_shadows_apng calm "anim.png"
           (folder {["anim.png" := File APNG_BYTES]}) APNG_BYTES).
  - reflexivity.
  - intros w'. reflexivity.
  - reflexivity.
  - reflexivity.
  - reflexivity.
Defined.

(** C9. [detect_file_type] never raises, whatever the file holds and
    whatever fails underneath: it returns a tag or [None] and leaves the
    folder as it was.  A file that can be read gets a tag, whatever its
    length; a zero-byte file gets [unknown], and the loop body then puts
    it in the unknown bucket and increments [skipped], not [failed]. *)
Theorem detect_file_type_never_raises (env : Env) (path : string) (w : World) :
  (∃ t w', detect_file_type env path w = (Ok t, w') ∧ files w' = files w)
  ∧ (∀ content,
        files w !! path = Some (File content) →
        (∀ w', open_fails env w' path = false) →
        ∃ tag, (detect_file_type env path w).1 = Ok (Some tag))
  ∧ (files w !! path = Some (File []) →
     (∀ w', open_fails env w' path = false) →
     (detect_file_type env path w).1 = Ok (Some unknown)
     ∧ ∀ r, ∃ w',
         process_file env path r w
         = (Ok (with_stats (incr Skipped) (add_unknown path r)), w')).
Proof.
  split; [|split].
  - destruct (detect_file_type_world env path w) as (t & k & ->).
    eexists _, _. split; [done|]. apply iter_record_files.
  - intros content. apply detect_file_type_readable.
  - intros Hf Ho. pose proof (detect_file_type_empty env path w Hf Ho) as Hd.
    split; [by rewrite Hd|]. intros r. unfold process_file, bind. rewrite Hd.
    by eexists.
Qed.

Lemma detect_file_type_never_raises_witness :
  (∃ tag, (detect_file_type calm "a.mp4" (folder scenario)).1 = Ok (Some tag))
  ∧ (detect_file_type calm "empty.gif" (folder {["empty.gif" := File []]})).1
    = Ok (Some unknown)
  ∧ ∀ r, ∃ w',
      process_file calm "empty.gif" r (folder {["empty.gif" := File []]})
      = (Ok (with_stats (incr Skipped) (add_unknown "empty.gif" r)), w').
Proof.
  split.
  - destruct (detect_file_type_never_raises calm "a.mp4" (folder scenario))
      as (_ & Hread & _).
    apply (Hread MP4_BYTES).
    + reflexivity.
    + intros w'. reflexivity.
  - destruct (detect_file_type_never_raises calm "empty.gif"
                (folder {["empty.gif" := File []]})) as (_ & _ & Hempty).
    apply Hempty.
    + reflexivity.
    + intros w'. reflexivity.
Defined.

(** [list_files] lists each regular file of the folder once, and nothing
    else. *)
Lemma list_files_regular (fs : gmap string entry) (name : string) :
  name ∈ list_files fs ↔ is_file_at fs name = true.
Proof.
  unfold list_files, is_file_at. rewrite list_elem_of_fmap. split.
  - intros ([n e] & -> & Hin). apply list_elem_of_filter in Hin as [Hfile Hin].
    apply elem_of_map_to_list in Hin. simpl in *. by rewrite Hin.
  - destruct (fs !! name) as [e|] eqn:Hf; [|done]. intros Hfile.
    exists (name, e). split; [done|].
    apply list_elem_of_filter. split; [done|]. by apply elem_of_map_to_list.
Qed.

Lemma list_files_NoDup (fs : gmap string entry) : NoDup (list_files fs).
Proof.
  unfold list_files. apply (sublist_NoDup _ (map_to_list fs).*1).
  - apply NoDup_fst_map_to_list.
  - apply fmap_sublist, sublist_filter.
Qed.

(** C5. The loop body ends normally for every file and changes the
    counters in exactly one way: one of [converted], [renamed], [skipped],
    [failed] goes up by one and the other three keep their values.  Over
    the loop no counter ever decreases and the sum of the four grows by
    the number of files listed; at the summary of a run it equals the
    number of regular files of the folder, the listing holding each of
    them once. *)
Theorem counters_account_for_every_file (env : Env) :
  (∀ file r w,
      ∃ key r' w',
        process_file env file r w = (Ok r', w')
        ∧ ∀ key', count key' (stats r')
                  = if decide (key' = key) then S (count key' (stats r))
                    else count key' (stats r))
  ∧ (∀ listed r w,
      ∃ r' w',
        process_files env listed r w = (Ok r', w')
        ∧ (∀ key, (count key (stats r) ≤ count key (stats r'))%nat)
        ∧ total (stats r') = (total (stats r) + length listed)%nat)
  ∧ (∀ w,
      folder_exists w = true →
      list_files (files w) ≠ [] →
      ∃ r w',
        process_folder env w = (Ok (Finished r), w')
        ∧ EvSummary (stats r) ∈ log w'
        ∧ (converted (stats r) + renamed (stats r) + skipped (stats r)
           + failed (stats r))%nat
          = length (list_files (files w)))
  ∧ (∀ fs, NoDup (list_files fs)
           ∧ ∀ name, name ∈ list_files fs ↔ is_file_at fs name = true).
Proof.
  split; [|split; [|split]]; [| | |by split; [apply list_files_NoDup|apply list_files_regular]].
  - intros file r w.
    destruct (process_file_total env file r w) as (key & r' & w' & Hrun & Hst & _).
    exists key, r', w'. split; [done|]. intros key'. rewrite Hst. apply count_incr.
  - intros listed r w.
    destruct (process_files_total env listed r w) as (r' & w' & Hrun & Htot & Hmono & _).
    by exists r', w'.
  - intros w Hex Hne.
    destruct (process_folder_finishes env w Hex Hne) as (r & w' & Hrun & Htot & Hsum & _).
    by exists r, w'.
Qed.

Lemma counters_account_for_every_file_witness :
  ∃ r w',
    process_folder hostile (folder scenario) = (Ok (Finished r), w')
    ∧ EvSummary (stats r) ∈ log w'
    ∧ (converted (stats r) + renamed (stats r) + skipped (stats r)
       + failed (stats r))%nat
      = length (list_files (files (folder scenario))).
Proof.
  apply (proj1 (proj2 (proj2 (counters_account_for_every_file hostile)))
           (folder scenario)).
  - reflexivity.
  - vm_compute. discriminate.
Defined.

Section Outcomes.

Context (env : Env).

Lemma process_file_detection_error (file : string) (r : Run) (w w0 : World) :
  detect_file_type env file w = (Ok None, w0) →
  process_file env file r w = (Ok (with_stats (incr Skipped) r), w0).
Proof. intros Hd. unfold process_file, bind. by rewrite Hd. Qed.

Lemma gif_branch_rename_failure (file final_name : string) (r : Run) (w w1 : World) (e : exn) :
  file ≠ final_name →
  path_rename env file final_name w = (Raise e, w1) →
  gif_branch env file final_name r w = (Ok (with_stats (incr Failed) r), w1).
Proof.
  intros Hne Hren. unfold gif_branch, try_except, bind.
  rewrite bool_decide_eq_true_2 by done. by rewrite Hren.
Qed.

Lemma convert_branch_failure (file final_name : string) (r : Run) (w w1 : World) (result : Z) :
  convert_to_gif env file final_name w = (Ok result, w1) →
  result ≠ 0 →
  convert_branch env file final_name r w = (Ok (with_stats (incr Failed) r), w1).
Proof.
  intros Hc Hne. unfold convert_branch, bind. rewrite Hc.
  by rewrite bool_decide_eq_false_2.
Qed.

Lemma convert_branch_unlink_failure (file final_name : string) (r : Run)
    (w w1 w2 : World) (e : exn) :
  convert_to_gif env file final_name w = (Ok 0, w1) →
  file ≠ final_name →
  path_unlink env file w1 = (Raise e, w2) →
  convert_branch env file final_name r w = (Ok (with_stats (incr Converted) r), w2).
Proof.
  intros Hc Hne Hun. unfold convert_branch, bind, try_except. rewrite Hc.
  rewrite bool_decide_eq_true_2 by done. rewrite bool_decide_eq_true_2 by done.
  by rewrite Hun.
Qed.

End Outcomes.

(** C6. No per-file error aborts the batch.  The loop body ends normally
    for every file, whatever fails: a detection error increments [skipped];
    a failed rename increments [failed]; a failed conversion increments
    [failed]; a failed deletion of the source after a conversion still
    increments [converted].  A run on a folder with at least one regular
    file therefore opens every listed file, prints the summary and ends
    normally, with one outcome counted per file. *)
Theorem per_file_errors_do_not_abort (env : Env) :
  (∀ file r w, ∃ r' w', process_file env file r w = (Ok r', w'))
  ∧ (∀ file r w w0,
      detect_file_type env file w = (Ok None, w0) →
      process_file env file r w = (Ok (with_stats (incr Skipped) r), w0))
  ∧ (∀ file final_name r w w1 e,
      file ≠ final_name →
      path_rename env file final_name w = (Raise e, w1) →
      gif_branch env file final_name r w = (Ok (with_stats (incr Failed) r), w1))
  ∧ (∀ file final_name r w w1 result,
      convert_to_gif env file final_name w = (Ok result, w1) →
      result ≠ 0 →
      convert_branch env file final_name r w = (Ok (with_stats (incr Failed) r), w1))
  ∧ (∀ file final_name r w w1 w2 e,
      convert_to_gif env file final_name w = (Ok 0, w1) →
      file ≠ final_name →
      path_unlink env file w1 = (Raise e, w2) →
      convert_branch env file final_name r w
      = (Ok (with_stats (incr Converted) r), w2))
  ∧ (∀ w,
      folder_exists w = true →
      list_files (files w) ≠ [] →
      ∃ r w',
        process_folder env w = (Ok (Finished r), w')
        ∧ (∀ file, file ∈ list_files (files w) → EvOpen file ∈ log w')
        ∧ EvSummary (stats r) ∈ log w'
        ∧ total (stats r) = length (list_files (files w))).
Proof.
  split; [|split; [|split; [|split; [|split]]]].
  - intros file r w.
    destruct (process_file_total env file r w) as (key & r' & w' & Hrun & _).
    by exists r', w'.
  - apply process_file_detection_error.
  - apply gif_branch_rename_failure.
  - apply convert_branch_failure.
  - apply convert_branch_unlink_failure.
  - intros w Hex Hne.
    destruct (process_folder_finishes env w Hex Hne) as (r & w' & Hrun & Htot & Hsum & Hopen).
    by exists r, w'.
Qed.

Lemma per_file_errors_do_not_abort_witness :
  (process_file hostile "a.mp4" new_run (folder scenario)
   = (Ok (with_stats (incr Skipped) new_run),
      record (EvOpen "a.mp4") (folder scenario)))
  ∧ (gif_branch read_only "b.mp4.gif" "b.gif" new_run (folder scenario)
     = (Ok (with_stats (incr Failed) new_run),
        record (EvRename "b.mp4.gif" "b.gif") (folder scenario)))
  ∧ (convert_branch ffmpeg_fails "a.mp4" "a.gif" new_run (folder scenario)
     = (Ok (with_stats (incr Failed) new_run),
        (convert_to_gif ffmpeg_fails "a.mp4" "a.gif" (folder scenario)).2))
  ∧ (convert_branch read_only "a.mp4" "a.gif" new_run (folder scenario)
     = (Ok (with_stats (incr Converted) new_run),
        record (EvUnlink "a.mp4")
          (convert_to_gif read_only "a.mp4" "a.gif" (folder scenario)).2))
  ∧ ∃ r w',
      process_folder hostile (folder scenario) = (Ok (Finished r), w')
      ∧ (∀ file, file ∈ list_files (files (folder scenario)) → EvOpen file ∈ log w')
      ∧ EvSummary (stats r) ∈ log w'
      ∧ total (stats r) = length (list_files (files (folder scenario))).
Proof.
  split; [|split; [|split; [|split]]].
  - destruct (per_file_errors_do_not_abort hostile) as (_ & Hdetect & _).
    apply Hdetect. reflexivity.
  - destruct (per_file_errors_do_not_abort read_only) as (_ & _ & Hrename & _).
    apply (Hrename _ _ _ _ _ OSError).
    + discriminate.
    + reflexivity.
  - destruct (per_file_errors_do_not_abort ffmpeg_fails) as (_ & _ & _ & Hconv & _).
    apply (Hconv _ _ _ _ _ 1).
    + reflexivity.
    + lia.
  - destruct (per_file_errors_do_not_abort read_only) as (_ & _ & _ & _ & Hunlink & _).
    apply (Hunlink _ _ _ _
             (convert_to_gif read_only "a.mp4" "a.gif" (folder scenario)).2 _ OSError).
    + reflexivity.
    + discriminate.
    + reflexivity.
  - destruct (per_file_errors_do_not_abort hostile) as (_ & _ & _ & _ & _ & Hrun).
    apply (Hrun (folder scenario)).
    + reflexivity.
    + vm_compute. discriminate.
Defined.

(** ** [convert_to_gif] on one path *)

Lemma temp_name_differs (path : string) : path +:+ ".tmp.gif" ≠ path.
Proof.
  intros H. apply (f_equal String.length) in H. rewrite app_length in H.
  simpl in H. lia.
Qed.

(** C2. When source and target are the same path, ffmpeg is run once, with
    the sibling [path.tmp.gif] as its output, so it writes beside the
    original.  If it exits nonzero, [convert_to_gif] returns that status
    and does nothing more: the entry at [path] is what it was, whatever
    ffmpeg left at the temporary path stays there, and ffmpeg is not run
    again.  Only if it exits 0 is [os.replace] called, after ffmpeg: then
    either the temporary file has taken the place of the original and 0 is
    returned, or the replacement failed, the folder is as ffmpeg left it
    and 1 is returned. *)
Theorem convert_to_gif_same_path (env : Env) (path : string) (w : World)
    (status : Z) (written : option bytes) :
  let temp := path +:+ ".tmp.gif" in
  let fs1 := match written with
             | Some content => <[temp := File content]> (files w)
             | None => files w
             end in
  ffmpeg env w path temp = (status, written) →
  temp ≠ path
  ∧ fs1 !! path = files w !! path
  ∧ (status ≠ 0 →
     convert_to_gif env path path w
     = (Ok status, mkWorld (folder_exists w) fs1 (EvSystem path temp :: log w)))
  ∧ (status = 0 →
     ∃ result w',
       convert_to_gif env path path w = (Ok result, w')
       ∧ log w' = EvReplace temp path :: EvSystem path temp :: log w
       ∧ ((result = 0 ∧ is_Some (fs1 !! temp)
           ∧ files w' !! path = fs1 !! temp ∧ files w' !! temp = None)
          ∨ (result = 1 ∧ files w' = fs1))).
Proof.
  intros temp fs1 Hff.
  pose proof (temp_name_differs path) as Hne. fold temp in Hne.
  split; [done|]. split.
  { subst fs1. destruct written; [|done]. by rewrite lookup_insert_ne. }
  unfold convert_to_gif, bind, os_system, try_except.
  rewrite bool_decide_eq_true_2 by done. simpl. fold temp. rewrite Hff. fold fs1.
  split.
  - intros Hst. by rewrite bool_decide_eq_false_2.
  - intros ->. rewrite bool_decide_eq_true_2 by done.
    unfold os_replace, move. simpl.
    destruct (replace_fails env _ temp path).
    { eexists _, _. split; [reflexivity|]. split; [done|]. by right. }
    destruct (fs1 !! temp) as [e|] eqn:Htemp.
    + eexists _, _. split; [reflexivity|]. split; [done|]. left.
      split; [done|]. split; [done|]. simpl. split.
      * by rewrite lookup_insert_eq.
      * rewrite lookup_insert_ne by done. by rewrite lookup_delete_eq.
    + eexists _, _. split; [reflexivity|]. split; [done|]. by right.
Qed.

Lemma convert_to_gif_same_path_witness :
  (convert_to_gif ffmpeg_fails "video.mp4" "video.mp4"
     (folder {["video.mp4" := File MP4_BYTES]})
   = (Ok 1,
      mkWorld true
        (<["video.mp4.tmp.gif" := File []]> {["video.mp4" := File MP4_BYTES]})
        [EvSystem "video.mp4" "video.mp4.tmp.gif"]))
  ∧ ∃ result w',
      convert_to_gif calm "video.mp4" "video.mp4"
        (folder {["video.mp4" := File MP4_BYTES]}) = (Ok result, w')
      ∧ log w' = [EvReplace "video.mp4.tmp.gif" "video.mp4";
                  EvSystem "video.mp4" "video.mp4.tmp.gif"]
      ∧ ((result = 0
          ∧ is_Some ((<["video.mp4.tmp.gif" := File GIF_BYTES]>
                        {["video.mp4" := File MP4_BYTES]} : gmap string entry)
                     !! "video.mp4.tmp.gif")
          ∧ files w' !! "video.mp4"
            = (<["video.mp4.tmp.gif" := File GIF_BYTES]>
                 {["video.mp4" := File MP4_BYTES]} : gmap string entry)
              !! "video.mp4.tmp.gif"
          ∧ files w' !! "video.mp4.tmp.gif" = None)
         ∨ (result = 1
            ∧ files w' = <["video.mp4.tmp.gif" := File GIF_BYTES]>
                           {["video.mp4" := File MP4_BYTES]})).
Proof.
  split.
  - destruct (convert_to_gif_same_path ffmpeg_fails "video.mp4"
                (folder {["video.mp4" := File MP4_BYTES]}) 1 (Some []) eq_refl)
      as (_ & _ & Hfail & _).
    apply Hfail. lia.
  - destruct (convert_to_gif_same_path calm "video.mp4"
                (folder {["video.mp4" := File MP4_BYTES]}) 0 (Some GIF_BYTES) eq_refl)
      as (_ & _ & _ & Hok).
    apply Hok. reflexivity.
Defined.

(** ** The conversion branches *)

Section Conversion.

Context (env : Env).

(** For a convertible type the loop body is: resolve the name, run the
    conversion branch, append to [processed]. *)
Lemma process_file_convertible (file : string) (r : Run) (w w0 : World)
    (file_type : file_type) :
  detect_file_type env file w = (Ok (Some file_type), w0) →
  file_type ∈ convertible →
  process_file env file r w
  = (r' <- convert_branch env file
             (resolve_name (files w0) file (clean_filename file)) r ;;
     ret (add_processed (resolve_name (files w0) file (clean_filename file)) r')) w0.
Proof.
  intros Hd Hin. unfold process_file. unfold bind at 1. rewrite Hd.
  unfold convertible in Hin.
  apply list_elem_of_In in Hin. simpl in Hin.
  destruct file_type; try reflexivity; exfalso; intuition discriminate.
Qed.

(** [convert_to_gif] returns 0 when ffmpeg exits 0 and, for one path as
    source and target, the temporary output can be moved over it. *)
Lemma convert_to_gif_success (input_path output_path : string) (w : World) :
  (ffmpeg env w input_path
     (if bool_decide (input_path = output_path)
      then output_path +:+ ".tmp.gif" else output_path)).1 = 0 →
  (input_path = output_path →
   (os_replace env (output_path +:+ ".tmp.gif") output_path
      (os_system env input_path (output_path +:+ ".tmp.gif") w).2).1 = Ok ()) →
  (convert_to_gif env input_path output_path w).1 = Ok 0.
Proof.
  intros Hstatus Hreplace. unfold convert_to_gif, bind, try_except.
  case_bool_decide as Hsame; simpl.
  - specialize (Hreplace Hsame). unfold os_system in *.
    destruct (ffmpeg env w input_path (output_path +:+ ".tmp.gif")) as [status written].
    simpl in *. subst status. rewrite bool_decide_eq_true_2 by done.
    destruct (os_replace env _ output_path _) as [[[]|e] w2]; [done|].
    by simpl in Hreplace.
  - unfold os_system.
    destruct (ffmpeg env w input_path output_path) as [status written].
    simpl in *. by subst status.
Qed.

(** What [path.unlink()] does to the folder. *)
Lemma path_unlink_files (path : string) (w : World) :
  files (path_unlink env path w).2
  = if is_file_at (files w) path && negb (unlink_fails env w path)
    then delete path (files w) else files w.
Proof.
  unfold path_unlink, is_file_at.
  destruct (files w !! path) as [[content|]|] eqn:Hf; simpl; [|done..].
  by destruct (unlink_fails env w path).
Qed.

End Conversion.

(** C8 (as amended). When the conversion of a file of a convertible type
    succeeds -- ffmpeg exits 0 and, where source and target are one path,
    the temporary output is moved over it, so that [convert_to_gif]
    returns 0 -- the loop body increments [converted] and nothing else.
    It calls [unlink] on the source exactly when source and target
    differ; if that call fails the outcome is the same and the folder is
    as the conversion left it, and if it succeeds only the source entry is
    gone.  No other entry is changed by this step. *)
Theorem conversion_success_step (env : Env) (file : string) (r : Run)
    (w w0 : World) (file_type : file_type) :
  let final_name := resolve_name (files w0) file (clean_filename file) in
  let temp := final_name +:+ ".tmp.gif" in
  let w1 := (convert_to_gif env file final_name w0).2 in
  detect_file_type env file w = (Ok (Some file_type), w0) →
  file_type ∈ convertible →
  (ffmpeg env w0 file
     (if bool_decide (file = final_name) then temp else final_name)).1 = 0 →
  (file = final_name →
   (os_replace env temp final_name (os_system env file temp w0).2).1 = Ok ()) →
  (convert_to_gif env file final_name w0).1 = Ok 0
  ∧ ∃ w2,
      process_file env file r w
      = (Ok (add_processed final_name (with_stats (incr Converted) r)), w2)
      ∧ (file = final_name → w2 = w1)
      ∧ (file ≠ final_name →
         log w2 = EvUnlink file :: log w1
         ∧ files w2
           = if is_file_at (files w1) file && negb (unlink_fails env w1 file)
             then delete file (files w1) else files w1)
      ∧ ∀ name, name ≠ file → files w2 !! name = files w1 !! name.
Proof.
  intros final_name temp w1 Hd Hin Hstatus Hreplace.
  pose proof (convert_to_gif_success env file final_name w0 Hstatus Hreplace) as Hzero.
  split; [exact Hzero|].
  assert (convert_to_gif env file final_name w0 = (Ok 0, w1)) as Hc.
  { subst w1. destruct (convert_to_gif env file final_name w0). simpl in *. by subst. }
  clear Hstatus Hreplace Hzero.
  rewrite (process_file_convertible env file r w w0 file_type Hd Hin).
  fold final_name. unfold bind, convert_branch. unfold bind at 1. rewrite Hc.
  rewrite bool_decide_eq_true_2 by done. unfold bind, try_except.
  case_bool_decide as Hne.
  - pose proof (path_unlink_log env file w1) as Hlog.
    pose proof (path_unlink_files env file w1) as Hfiles.
    destruct (path_unlink env file w1) as [[[]|e] w2]; simpl in Hlog, Hfiles;
      exists w2; (split; [done|]); (split; [done|]); (split; [done|]);
      intros name Hname; rewrite Hfiles; case_match; try done;
      by rewrite lookup_delete_ne.
  - exists w1. split; [done|]. split; [done|]. split; [|done].
    intros Hne'. by destruct Hne.
Qed.

Lemma conversion_success_step_witness :
  (∃ w2,
      process_file calm "a.mp4" new_run (folder scenario)
      = (Ok (add_processed "a.gif" (with_stats (incr Converted) new_run)), w2)
      ∧ files w2 !! "a.mp4" = None
      ∧ files w2 !! "a.gif" = Some (File GIF_BYTES)
      ∧ files w2 !! "c.webm" = Some (File HTML_BYTES))
  ∧ ∃ w2,
      process_file calm "x.gif" new_run (folder {["x.gif" := File PNG_BYTES]})
      = (Ok (add_processed "x.gif" (with_stats (incr Converted) new_run)), w2)
      ∧ files w2 !! "x.gif" = Some (File GIF_BYTES)
      ∧ log w2 = [EvReplace "x.gif.tmp.gif" "x.gif";
                  EvSystem "x.gif" "x.gif.tmp.gif";
                  EvOpen "x.gif"; EvOpen "x.gif"].
Proof.
  split.
  - destruct (conversion_success_step calm "a.mp4" new_run (folder scenario)
                (detect_file_type calm "a.mp4" (folder scenario)).2 mp4)
      as (_ & w2 & Hrun & _ & Hdiff & _).
    + reflexivity.
    + unfold convertible. apply list_elem_of_In. simpl. tauto.
    + reflexivity.
    + intros Hsame. vm_compute in Hsame. discriminate Hsame.
    + exists w2. split; [exact Hrun|].
      destruct Hdiff as [_ Hfiles]; [vm_compute; discriminate|].
      rewrite Hfiles. split; [reflexivity|]. split; reflexivity.
  - destruct (conversion_success_step calm "x.gif" new_run
                (folder {["x.gif" := File PNG_BYTES]})
                (detect_file_type calm "x.gif"
                   (folder {["x.gif" := File PNG_BYTES]})).2 png)
      as (_ & w2 & Hrun & Hsame & _).
    + reflexivity.
    + unfold convertible. apply list_elem_of_In. simpl. tauto.
    + reflexivity.
    + intros _. reflexivity.
    + exists w2. split; [exact Hrun|].
      rewrite Hsame by reflexivity. split; reflexivity.
Defined.

(** C8 as stated fails: [x.gif] holds a PNG image, so source and target
    are the same path; ffmpeg exits 0, but [os.replace] of the temporary
    output fails, [convert_to_gif] returns 1 and the loop body increments
    [failed], not [converted]. *)
Lemma conversion_exit_zero_counted_failed :
  let w := folder {["x.gif" := File PNG_BYTES]} in
  (detect_file_type replace_blocked "x.gif" w).1 = Ok (Some png)
  ∧ png ∈ convertible
  ∧ (ffmpeg replace_blocked w "x.gif" "x.gif.tmp.gif").1 = 0
  ∧ ∃ r' w',
      process_file replace_blocked "x.gif" new_run w = (Ok r', w')
      ∧ log w' = [EvReplace "x.gif.tmp.gif" "x.gif";
                  EvSystem "x.gif" "x.gif.tmp.gif";
                  EvOpen "x.gif"; EvOpen "x.gif"]
      ∧ stats r' = mkStats 0 0 0 1
      ∧ stats r' ≠ incr Converted (stats new_run).
Proof.
  intros w. split; [reflexivity|]. split; [unfold convertible; set_solver|].
  split; [reflexivity|].
  eexists _, _. split; [vm_compute; reflexivity|].
  split; [reflexivity|]. split; [reflexivity|]. discriminate.
Qed.

(** ** Runs on a normalised folder *)

Section Normalised.

Context (env : Env).

Lemma list_files_spec (fs : gmap string entry) (name : string) :
  name ∈ list_files fs ↔ ∃ content, fs !! name = Some (File content).
Proof.
  unfold list_files. rewrite list_elem_of_fmap. split.
  - intros ([n e] & -> & Hin). apply list_elem_of_filter in Hin as [Hfile Hin].
    apply elem_of_map_to_list in Hin. simpl in *. destruct e; [by eexists|done].
  - intros [content Hf]. exists (name, File content). split; [done|].
    apply list_elem_of_filter. split; [done|]. by apply elem_of_map_to_list.
Qed.

Lemma normalized_lookup (fs : gmap string entry) (name : string) (content : bytes) :
  normalized fs = true →
  fs !! name = Some (File content) →
  has_gif_signature content = true ∧ name = clean_filename name +:+ ".gif".
Proof.
  unfold normalized. rewrite forallb_forall. intros Hall Hf.
  specialize (Hall (name, File content)). simpl in Hall.
  apply andb_prop in Hall as [Hgif Hname%bool_decide_eq_true]; [done|].
  apply list_elem_of_In. by apply elem_of_map_to_list.
Qed.

(** A file that already carries its target name resolves to itself. *)
Lemma resolve_name_self (fs : gmap string entry) (file clean_name : string) :
  file = clean_name +:+ ".gif" → resolve_name fs file clean_name = file.
Proof.
  intros Hname. unfold resolve_name. rewrite <-Hname.
  assert (∀ fuel, conflict_loop fuel fs file clean_name file 1 = Some file) as ->; [|done].
  intros fuel. destruct fuel; simpl;
    rewrite (bool_decide_eq_false_2 (file ≠ file)) by (by intros ?);
    by rewrite andb_false_r.
Qed.

Lemma process_file_normalized (file : string) (r : Run) (w : World) (content : bytes) :
  files w !! file = Some (File content) →
  has_gif_signature content = true →
  file = clean_filename file +:+ ".gif" →
  ∃ r', process_file env file r w = (Ok r', record (EvOpen file) w)
        ∧ stats r' = incr Skipped (stats r)
        ∧ html_files r' = html_files r
        ∧ text_error_files r' = text_error_files r.
Proof.
  intros Hf Hgif Hname. unfold process_file, bind.
  destruct (detect_file_type_gif env file w content Hf Hgif) as (t & -> & [-> | ->]).
  - simpl. unfold get_files. rewrite (resolve_name_self _ _ _ Hname).
    unfold gif_branch. rewrite (bool_decide_eq_false_2 (file ≠ file)) by (by intros ?).
    by eexists.
  - by eexists.
Qed.

Lemma process_files_normalized (listed : list string) (r : Run) (w : World) :
  normalized (files w) = true →
  (∀ file, file ∈ listed → ∃ content, files w !! file = Some (File content)) →
  ∃ r', process_files env listed r w
        = (Ok r', mkWorld (folder_exists w) (files w)
                    ((EvOpen <$> reverse listed) ++ log w))
        ∧ stats r' = Nat.iter (length listed) (incr Skipped) (stats r)
        ∧ html_files r' = html_files r
        ∧ text_error_files r' = text_error_files r.
Proof.
  intros Hnorm. revert r w Hnorm.
  induction listed as [|file rest IH]; intros r w Hnorm Hfiles.
  - exists r. by destruct w.
  - destruct (Hfiles file) as [content Hf]; [by left|].
    destruct (normalized_lookup _ _ _ Hnorm Hf) as [Hgif Hname].
    cbn [process_files]. unfold bind.
    destruct (process_file_normalized file r w content Hf Hgif Hname)
      as (r1 & -> & Hst & Hhtml & Herr).
    destruct (IH r1 (record (EvOpen file) w)) as (r' & -> & Hst' & Hhtml' & Herr').
    { exact Hnorm. }
    { intros f Hin. apply Hfiles. by right. }
    exists r'. split.
    + simpl. rewrite reverse_cons, fmap_app, <-app_assoc. done.
    + rewrite Hst', Hst, Hhtml', Hhtml, Herr', Herr. split; [|done].
      change (length (file :: rest)) with (S (length rest)).
      by rewrite Nat.iter_succ_r.
Qed.

Lemma iter_incr_skipped (n : nat) (s : Stats) :
  Nat.iter n (incr Skipped) s
  = mkStats (converted s) (renamed s) (n + skipped s) (failed s).
Proof.
  induction n as [|n IH]; [by destruct s|]. simpl. rewrite IH. done.
Qed.

Lemma no_mutation_opens (names : list string) :
  Forall (λ ev, mutating ev = false) (EvOpen <$> names).
Proof. apply Forall_fmap, Forall_forall. by intros. Qed.

(** One run on a normalised folder. *)
Lemma process_folder_normalized (w : World) :
  folder_exists w = true →
  normalized (files w) = true →
  ∃ o evs,
    process_folder env w = (Ok o, mkWorld true (files w) (evs ++ log w))
    ∧ Forall (λ ev, mutating ev = false) evs
    ∧ summary_of o
      = if decide (list_files (files w) = []) then None
        else Some (mkStats 0 0 (length (list_files (files w))) 0).
Proof.
  intros Hex Hnorm. unfold process_folder. rewrite Hex. simpl.
  destruct (list_files (files w)) as [|file rest] eqn:Hl.
  { exists NoFiles, []. destruct w; simpl in *. by subst. }
  unfold bind.
  destruct (process_files_normalized (file :: rest) new_run w Hnorm)
    as (r & -> & Hst & Hhtml & Herr).
  { intros f Hin. apply list_files_spec. by rewrite Hl. }
  unfold print_summary. rewrite Hhtml, Herr. simpl.
  exists (Finished r), (EvSummary (stats r) :: (EvOpen <$> reverse (file :: rest))).
  rewrite Hex. split; [done|]. split.
  - apply Forall_cons. split; [done|]. apply no_mutation_opens.
  - simpl. rewrite Hst, iter_incr_skipped. simpl. do 2 f_equal. lia.
Qed.

End Normalised.

(** C3. On a folder whose regular files all carry a GIF signature and
    their own normalised name, a run calls nothing that changes the
    folder -- no rename, no conversion, no replace, no deletion -- and
    leaves the folder as it was; its summary counts every regular file as
    skipped and nothing else (with no regular file at all, the run stops
    before the summary).  A second run, started where the first ended,
    does the same and reports the same. *)
Theorem process_folder_idempotent (env : Env) (w : World) :
  folder_exists w = true →
  normalized (files w) = true →
  ∃ o1 evs1 o2 evs2,
    let w1 := mkWorld true (files w) (evs1 ++ log w) in
    let w2 := mkWorld true (files w) (evs2 ++ evs1 ++ log w) in
    process_folder env w = (Ok o1, w1)
    ∧ process_folder env w1 = (Ok o2, w2)
    ∧ Forall (λ ev, mutating ev = false) evs1
    ∧ Forall (λ ev, mutating ev = false) evs2
    ∧ summary_of o1
      = (if decide (list_files (files w) = []) then None
         else Some (mkStats 0 0 (length (list_files (files w))) 0))
    ∧ summary_of o2 = summary_of o1.
Proof.
  intros Hex Hnorm.
  destruct (process_folder_normalized env w Hex Hnorm) as (o1 & evs1 & Hrun1 & Hq1 & Hs1).
  destruct (process_folder_normalized env (mkWorld true (files w) (evs1 ++ log w)))
    as (o2 & evs2 & Hrun2 & Hq2 & Hs2); [done|done|].
  exists o1, evs1, o2, evs2. simpl in *.
  split; [done|]. split; [done|]. split; [done|]. split; [done|]. split; [done|].
  by rewrite Hs1, Hs2.
Qed.

Lemma process_folder_idempotent_witness :
  ∃ o1 evs1 o2 evs2,
    process_folder read_only (folder tidy)
    = (Ok o1, mkWorld true tidy (evs1 ++ []))
    ∧ process_folder read_only (mkWorld true tidy (evs1 ++ []))
      = (Ok o2, mkWorld true tidy (evs2 ++ evs1 ++ []))
    ∧ Forall (λ ev, mutating ev = false) evs1
    ∧ Forall (λ ev, mutating ev = false) evs2
    ∧ summary_of o1 = Some (mkStats 0 0 2 0)
    ∧ summary_of o2 = summary_of o1.
Proof.
  apply (process_folder_idempotent read_only (folder tidy)).
  - reflexivity.
  - vm_compute. reflexivity.
Defined.

(** ** The specification's end-to-end scenario

    [a.mp4] holds MP4 data, [b.mp4.gif] holds a GIF, [c.webm] holds an HTML
    page.  With every call succeeding and the operator declining the
    deletion, [a.mp4] is converted into [a.gif] and removed, [b.mp4.gif] is
    renamed to [b.gif], and [c.webm] is put in the HTML bucket and kept. *)
Example scenario_run :
  ∃ r w',
    process_folder calm (folder scenario) = (Ok (Finished r), w')
    ∧ stats r = mkStats 1 1 1 0
    ∧ html_files r = ["c.webm"]
    ∧ files w' = {[ "a.gif" := File GIF_BYTES;
                    "b.gif" := File GIF_BYTES;
                    "c.webm" := File HTML_BYTES ]}.
Proof. eexists _, _. split; [vm_compute; reflexivity|]. by vm_compute. Qed.

(** * Further properties *)

(** ** Detection as a function of the content *)

Section Classify.

Context (env : Env).

(** How many times [detect_file_type] opens a file with this content. *)
Lemma detect_file_type_classify (path : string) (w : World) (content : bytes) :
  files w !! path = Some (File content) →
  (∀ w', open_fails env w' path = false) →
  (detect_file_type env path w).1 = Ok (Some (classify content)).
Proof.
  intros Hf Ho. unfold detect_file_type, try_except, bind, classify, header_tag.
  rewrite (open_read_ok env path 32 w _ Hf (Ho _)).
  repeat (case_if; [done|]).
  rewrite (open_read_ok env path 256 (record (EvOpen path) w) content Hf (Ho _)).
  repeat (case_if; [done|]).
  case_if; [|done].
  rewrite (open_read_ok env path 1024 (record (EvOpen path) (record (EvOpen path) w))
             content Hf (Ho _)).
  unfold ret. simpl. by case_if.
Qed.

End Classify.

Lemma header_tag_values (header : bytes) (tag : file_type) :
  header_tag header = Some tag →
  tag ∈ [gif; html; text_error; text_file; mp4; webm; avi].
Proof.
  unfold header_tag.
  repeat (case_if; [intros [= <-]; apply list_elem_of_In; simpl; tauto|]).
  discriminate.
Qed.

Lemma classify_prefix (content : bytes) (n : nat) :
  (1024 ≤ n)%nat → classify (take n content) = classify content.
Proof.
  intros Hn. unfold classify. rewrite !take_take.
  by rewrite !Nat.min_l by lia.
Qed.

(** X1. The tag of a file that can be read is decided by its first 1024
    bytes: two readable files that agree there get the same tag, whatever
    follows and whatever their names.  When one of the rules 1-7 matches,
    the first 32 bytes decide. *)
Theorem detect_file_type_first_kilobyte (env1 env2 : Env) (path1 path2 : string)
    (w1 w2 : World) (content1 content2 : bytes) :
  files w1 !! path1 = Some (File content1) →
  files w2 !! path2 = Some (File content2) →
  (∀ w', open_fails env1 w' path1 = false) →
  (∀ w', open_fails env2 w' path2 = false) →
  (take 1024 content1 = take 1024 content2 →
   (detect_file_type env1 path1 w1).1 = (detect_file_type env2 path2 w2).1)
  ∧ (take 32 content1 = take 32 content2 →
     is_Some (header_tag (take 32 content1)) →
     (detect_file_type env1 path1 w1).1 = (detect_file_type env2 path2 w2).1).
Proof.
  intros Hf1 Hf2 Ho1 Ho2.
  rewrite (detect_file_type_classify env1 path1 w1 content1 Hf1 Ho1).
  rewrite (detect_file_type_classify env2 path2 w2 content2 Hf2 Ho2).
  split.
  - intros Heq. rewrite <-(classify_prefix content1 1024), <-(classify_prefix content2 1024) by lia.
    by rewrite Heq.
  - intros Heq [tag Htag]. unfold classify. rewrite <-Heq, Htag. done.
Qed.

Lemma detect_file_type_first_kilobyte_witness :
  (detect_file_type calm "a.png"
     (folder {["a.png" := File (PNG_SHORT ++ replicate 1020 x00 ++ lit "acTL")]})).1
  = (detect_file_type read_only "b.bin"
       (folder {["b.bin" := File (PNG_SHORT ++ replicate 1020 x00 ++ lit "IDAT")]})).1
  ∧ (detect_file_type calm "a.gif"
       (folder {["a.gif" := File (GIF_BYTES ++ replicate 18 x00 ++ lit "moov")]})).1
    = (detect_file_type read_only "b.bin"
         (folder {["b.bin" := File (GIF_BYTES ++ replicate 18 x00 ++ lit "acTL")]})).1.
Proof.
  split.
  - destruct (detect_file_type_first_kilobyte calm read_only "a.png" "b.bin"
                (folder {["a.png" := File (PNG_SHORT ++ replicate 1020 x00 ++ lit "acTL")]})
                (folder {["b.bin" := File (PNG_SHORT ++ replicate 1020 x00 ++ lit "IDAT")]})
                (PNG_SHORT ++ replicate 1020 x00 ++ lit "acTL")
                (PNG_SHORT ++ replicate 1020 x00 ++ lit "IDAT"))
      as [Hkilo _].
    + reflexivity.
    + reflexivity.
    + intros w'. reflexivity.
    + intros w'. reflexivity.
    + apply Hkilo. reflexivity.
  - destruct (detect_file_type_first_kilobyte calm read_only "a.gif" "b.bin"
                (folder {["a.gif" := File (GIF_BYTES ++ replicate 18 x00 ++ lit "moov")]})
                (folder {["b.bin" := File (GIF_BYTES ++ replicate 18 x00 ++ lit "acTL")]})
                (GIF_BYTES ++ replicate 18 x00 ++ lit "moov")
                (GIF_BYTES ++ replicate 18 x00 ++ lit "acTL"))
      as [_ Hheader].
    + reflexivity.
    + reflexivity.
    + intros w'. reflexivity.
    + intros w'. reflexivity.
    + apply Hheader.
      * reflexivity.
      * exists gif. reflexivity.
Defined.

Lemma startswith_take (s p : bytes) (n : nat) :
  (length p ≤ n)%nat → startswith (take n s) p = startswith s p.
Proof.
  revert s n. induction p as [|b p IH]; intros s n Hn; [done|].
  destruct n as [|n]; [simpl in Hn; lia|].
  destruct s as [|a s]; [done|]. simpl. rewrite IH; [done|]. simpl in Hn. lia.
Qed.

Lemma slice_take (s : bytes) (lo hi n : nat) :
  (lo ≤ hi ≤ n)%nat → slice lo hi (take n s) = slice lo hi s.
Proof.
  intros Hn. unfold slice. rewrite !take_drop_commute, take_take.
  by rewrite Nat.min_l by lia.
Qed.

(** X2. When one of the header rules 1-7 matches the first 32 bytes, the
    file is opened exactly once, nothing after the header is looked at and
    the tag of the first matching rule is returned; only the first read
    has to succeed.  In particular a file that starts with [GIF87a] or
    [GIF89a] is tagged [gif] whatever else it contains. *)
Theorem detect_file_type_header_rules (env : Env) (path : string) (w : World)
    (content : bytes) :
  files w !! path = Some (File content) →
  open_fails env w path = false →
  (∀ tag, header_tag (take 32 content) = Some tag →
          detect_file_type env path w = (Ok (Some tag), record (EvOpen path) w))
  ∧ (has_gif_signature content = true →
     detect_file_type env path w = (Ok (Some gif), record (EvOpen path) w)).
Proof.
  intros Hf Ho.
  assert (∀ tag, header_tag (take 32 content) = Some tag →
                 detect_file_type env path w = (Ok (Some tag), record (EvOpen path) w))
    as Hrules.
  { intros tag. unfold detect_file_type, try_except, bind, header_tag.
    rewrite (open_read_ok env path 32 w _ Hf Ho).
    repeat (case_if; [by intros [= <-]|]). discriminate. }
  split; [exact Hrules|].
  intros Hgif. apply Hrules. unfold header_tag, has_gif_signature in *.
  rewrite !startswith_take by (simpl; lia). by rewrite Hgif.
Qed.

Lemma detect_file_type_header_rules_witness :
  detect_file_type calm "clip.bin"
    (folder {["clip.bin" := File (GIF_BYTES ++ lit "moov acTL ftyp qt")]})
  = (Ok (Some gif),
     record (EvOpen "clip.bin")
       (folder {["clip.bin" := File (GIF_BYTES ++ lit "moov acTL ftyp qt")]})).
Proof.
  destruct (detect_file_type_header_rules calm "clip.bin"
              (folder {["clip.bin" := File (GIF_BYTES ++ lit "moov acTL ftyp qt")]})
              (GIF_BYTES ++ lit "moov acTL ftyp qt")) as [Hrules Hgif].
  - reflexivity.
  - reflexivity.
  - apply (Hrules gif). reflexivity.
Defined.

(** X3. A file that can be read is tagged [mov] exactly when none of the
    header rules 1-7 matches and its first 256 bytes contain [moov], or
    [mdat], or both [ftyp] and [qt]: so an image that starts with the PNG
    signature and has such bytes near its start is tagged [mov], and a
    file whose bytes 4-8 are [ftyp] (as in a QuickTime movie with an
    [ftyp] box in front) is never tagged [mov]. *)
Theorem detect_file_type_mov (env : Env) (path : string) (w : World)
    (content : bytes) :
  files w !! path = Some (File content) →
  (∀ w', open_fails env w' path = false) →
  ((detect_file_type env path w).1 = Ok (Some mov)
   ↔ header_tag (take 32 content) = None
     ∧ has_mov_marker (take 256 content) = true)
  ∧ (startswith content PNG_SIGNATURE = true →
     has_mov_marker (take 256 content) = true →
     (detect_file_type env path w).1 = Ok (Some mov))
  ∧ ((8 ≤ length content)%nat →
     slice 4 8 content = lit "ftyp" →
     (detect_file_type env path w).1 ≠ Ok (Some mov)).
Proof.
  intros Hf Ho. rewrite (detect_file_type_classify env path w content Hf Ho).
  assert (Ok (Some (classify content)) = Ok (Some mov)
          ↔ header_tag (take 32 content) = None
            ∧ has_mov_marker (take 256 content) = true) as Hiff.
  { unfold classify. destruct (header_tag (take 32 content)) as [tag|] eqn:Htag.
    - apply header_tag_values in Htag. apply list_elem_of_In in Htag. simpl in Htag.
      split; [|by intros [? _]]. intros [= ->]. intuition discriminate.
    - split.
      + intros H. split; [done|]. revert H.
        destruct (has_mov_marker (take 256 content)); [done|].
        repeat (case_if; [discriminate|]). discriminate.
      + by intros [_ ->]. }
  split; [exact Hiff|]. split.
  - intros [rest ->]%startswith_app Hmov. apply Hiff. split; [|done].
    by vm_compute.
  - intros Hlen Hftyp H. apply Hiff in H as [Htag _]. revert Htag.
    unfold header_tag. rewrite slice_take by lia. rewrite Hftyp.
    assert (len_ge (take 32 content) 8 = true) as ->.
    { unfold len_ge. apply bool_decide_eq_true. rewrite length_take. lia. }
    rewrite bool_decide_eq_true_2 by done. simpl.
    repeat (case_if; [discriminate|]). discriminate.
Qed.

Lemma detect_file_type_mov_witness :
  (detect_file_type calm "pic.png" (folder {["pic.png" := File PNG_WITH_MDAT]})).1
  = Ok (Some mov)
  ∧ (detect_file_type calm "film.mov" (folder {["film.mov" := File QUICKTIME_BYTES]})).1
    ≠ Ok (Some mov).
Proof.
  split.
  - destruct (detect_file_type_mov calm "pic.png"
                (folder {["pic.png" := File PNG_WITH_MDAT]}) PNG_WITH_MDAT)
      as (_ & Hpng & _).
    + reflexivity.
    + intros w'. reflexivity.
    + apply Hpng; reflexivity.
  - destruct (detect_file_type_mov calm "film.mov"
                (folder {["film.mov" := File QUICKTIME_BYTES]}) QUICKTIME_BYTES)
      as (_ & _ & Hftyp).
    + reflexivity.
    + intros w'. reflexivity.
    + apply Hftyp.
      * vm_compute. lia.
      * reflexivity.
Defined.

(** X4. [apng] is returned only for a file that starts with the four bytes
    89 50 4E 47 without continuing to the full 8-byte PNG signature, and
    has [acTL] within its first 1024 bytes; a file with the full signature
    is never tagged [apng]. *)
Theorem detect_file_type_apng_only_short_signature (env : Env) (path : string)
    (w : World) (content : bytes) :
  files w !! path = Some (File content) →
  (∀ w', open_fails env w' path = false) →
  (detect_file_type env path w).1 = Ok (Some apng) →
  startswith content PNG_SHORT = true
  ∧ startswith content PNG_SIGNATURE = false
  ∧ contains (lit "acTL") (take 1024 content) = true.
Proof.
  intros Hf Ho. rewrite (detect_file_type_classify env path w content Hf Ho).
  unfold classify. destruct (header_tag (take 32 content)) as [tag|] eqn:Htag.
  { apply header_tag_values in Htag. apply list_elem_of_In in Htag. simpl in Htag.
    intros [= ->]. intuition discriminate. }
  rewrite !startswith_take by (simpl; lia).
  destruct (has_mov_marker (take 256 content)); [discriminate|].
  destruct (startswith content PNG_SIGNATURE); [discriminate|].
  repeat (case_if; [discriminate|]).
  destruct (startswith content PNG_SHORT); [|discriminate].
  destruct (contains (lit "acTL") (take 1024 content)); [done|discriminate].
Qed.

Lemma detect_file_type_apng_only_short_signature_witness :
  startswith BROKEN_APNG_BYTES PNG_SHORT = true
  ∧ startswith BROKEN_APNG_BYTES PNG_SIGNATURE = false
  ∧ contains (lit "acTL") (take 1024 BROKEN_APNG_BYTES) = true.
Proof.
  apply (detect_file_type_apng_only_short_signature calm "anim.png"
           (folder {["anim.png" := File BROKEN_APNG_BYTES]}) BROKEN_APNG_BYTES).
  - reflexivity.
  - intros w'. reflexivity.
  - reflexivity.
Defined.

(** ** The shape of a cleaned name *)

Lemma str_take_app (pre rest : string) :
  str_take (String.length pre) (pre +:+ rest) = pre.
Proof.
  induction pre as [|a pre IH]; [by destruct rest|].
  rewrite app_cons. simpl. by rewrite IH.
Qed.

Lemma str_drop_app (pre rest : string) :
  str_drop (String.length pre) (pre +:+ rest) = rest.
Proof.
  induction pre as [|a pre IH]; [by destruct rest|].
  rewrite app_cons. simpl. exact IH.
Qed.

Lemma app_assoc_str (s t u : string) : (s +:+ t) +:+ u = s +:+ (t +:+ u).
Proof. induction s as [|a s IH]; [done|]. rewrite !app_cons. by rewrite IH. Qed.

Lemma app_nil_r_str (s : string) : s +:+ "" = s.
Proof. induction s as [|a s IH]; [done|]. rewrite app_cons. by rewrite IH. Qed.

Lemma has_char_app (c : ascii) (s t : string) :
  has_char c (s +:+ t) = has_char c s || has_char c t.
Proof.
  induction s as [|a s IH]; [done|]. rewrite app_cons. simpl.
  by rewrite IH, orb_assoc.
Qed.

Lemma has_char_mid (c : ascii) (s t : string) : has_char c (s +:+ String c t) = true.
Proof.
  rewrite has_char_app. simpl. rewrite bool_decide_eq_true_2 by done.
  by rewrite orb_true_r.
Qed.

(** [rfind] finds the last occurrence. *)
Lemma rfind_go_split (c : ascii) (s : string) (i last : Z) :
  (has_char c s = false ∧ rfind_go c s i last = last)
  ∨ ∃ pre post, s = pre +:+ String c post
                ∧ has_char c post = false
                ∧ rfind_go c s i last = i + Z.of_nat (String.length pre).
Proof.
  revert i last. induction s as [|a s IH]; intros i last; [by left|].
  cbn [rfind_go has_char].
  destruct (IH (i + 1) (if bool_decide (a = c) then i else last))
    as [[Hno Hr]|(pre & post & -> & Hpost & Hr)].
  - rewrite Hr, Hno. case_bool_decide as Hac; simpl.
    + right. exists "", s. subst a. split; [done|]. split; [done|]. simpl. lia.
    + by left.
  - right. exists (String a pre), post. rewrite app_cons. split; [done|].
    split; [done|]. rewrite Hr. simpl String.length. lia.
Qed.

Lemma rfind_split (s : string) (c : ascii) :
  (has_char c s = false ∧ rfind s c = -1)
  ∨ ∃ pre post, s = pre +:+ String c post
                ∧ has_char c post = false
                ∧ rfind s c = Z.of_nat (String.length pre).
Proof.
  unfold rfind. destruct (rfind_go_split c s 0 (-1)) as [?|(pre & post & ? & ? & Hr)];
    [by left|]. right. exists pre, post. split; [done|]. split; [done|]. rewrite Hr. lia.
Qed.

Lemma get_app_length (done_ rest : string) (a : ascii) :
  String.get (String.length done_) (done_ +:+ String a rest) = Some a.
Proof. induction done_ as [|b d IH]; [done|]. rewrite app_cons. simpl. exact IH. Qed.

(** The loop that skips leading dots, run over the characters of [pre]. *)
Lemma non_dot_before_app (done_ pre rest : string) :
  non_dot_before (String.length pre) (done_ +:+ pre +:+ rest)
    (Z.of_nat (String.length done_))
  = negb (all_dots pre).
Proof.
  revert done_. induction pre as [|a pre IH]; intros done_; [done|].
  cbn [String.length non_dot_before all_dots]. rewrite Nat2Z.id.
  rewrite app_cons, get_app_length.
  case_bool_decide as Hne; case_bool_decide as Hdot; simplify_eq; try done.
  simpl. specialize (IH (done_ +:+ String "." "")).
  rewrite app_assoc_str in IH. rewrite app_cons in IH.
  change ("" +:+ pre +:+ rest) with (pre +:+ rest) in IH.
  rewrite <-IH. f_equal. rewrite app_length. simpl. lia.
Qed.

(** There is one way to cut a string at the last occurrence of [c]. *)
Lemma last_split_unique (c : ascii) (pre post pre' post' : string) :
  pre +:+ String c post = pre' +:+ String c post' →
  has_char c post = false → has_char c post' = false →
  pre' = pre ∧ post' = post.
Proof.
  intros Heq Hpost Hpost'. revert pre' Heq.
  induction pre as [|a pre IH]; intros [|b pre'] Heq.
  - change (String c post = String c post') in Heq. by injection Heq as ->.
  - change (String c post = String b (pre' +:+ String c post')) in Heq.
    injection Heq as _ Heq. rewrite Heq, has_char_mid in Hpost. discriminate.
  - change (String a (pre +:+ String c post) = String c post') in Heq.
    injection Heq as _ Heq. rewrite <-Heq, has_char_mid in Hpost'. discriminate.
  - rewrite !app_cons in Heq. injection Heq as -> Heq.
    by destruct (IH pre' Heq) as [-> ->].
Qed.

(** [splitext] on a name that has an extension to split off. *)
Lemma splitext_split (pre post : string) :
  has_char "/" (pre +:+ String "." post) = false →
  has_char "." post = false →
  splitext (pre +:+ String "." post)
  = if all_dots pre then (pre +:+ String "." post, "")
    else (pre, String "." post).
Proof.
  intros Hslash Hpost. unfold splitext.
  destruct (rfind_split (pre +:+ String "." post) "/") as [[_ ->]|(p1 & p2 & Heq & _)].
  2:{ rewrite Heq, has_char_mid in Hslash. discriminate. }
  destruct (rfind_split (pre +:+ String "." post) ".") as [[Hno _]|(p1 & p2 & Heq & Hp2 & ->)].
  { rewrite has_char_mid in Hno. discriminate. }
  destruct (last_split_unique "." pre post p1 p2 Heq Hpost Hp2) as [-> ->].
  rewrite bool_decide_eq_true_2 by lia.
  replace (Z.of_nat (String.length pre) - (-1 + 1)) with (Z.of_nat (String.length pre)) by lia.
  rewrite Nat2Z.id. simpl andb.
  pose proof (non_dot_before_app "" pre (String "." post)) as Hnd.
  change ("" +:+ pre +:+ String "." post) with (pre +:+ String "." post) in Hnd.
  change (Z.of_nat (String.length "")) with (-1 + 1) in Hnd. rewrite Hnd.
  destruct (all_dots pre); simpl; [done|].
  by rewrite str_take_app, str_drop_app.
Qed.

Lemma splitext_no_dot (name : string) :
  has_char "." name = false → splitext name = (name, "").
Proof.
  intros Hno. unfold splitext.
  destruct (rfind_split name ".") as [[_ ->]|(p1 & p2 & Heq & _)].
  - pose proof (rfind_bounds name "/"). rewrite bool_decide_eq_false_2 by lia. done.
  - rewrite Heq, has_char_mid in Hno. discriminate.
Qed.

Lemma before_dot_app_dot (s t : string) :
  before_dot (s +:+ String "." t) = before_dot s.
Proof.
  induction s as [|a s IH]; [done|]. rewrite app_cons. simpl.
  case_bool_decide; [done|]. by rewrite IH.
Qed.

Lemma stem_app_dot (pre post : string) :
  all_dots pre = false → stem (pre +:+ String "." post) = stem pre.
Proof.
  induction pre as [|a pre IH]; [done|]. rewrite app_cons. simpl.
  case_bool_decide; simpl.
  - intros Hpre. by rewrite IH.
  - intros _. by rewrite before_dot_app_dot.
Qed.

Lemma before_dot_no_dot (s : string) : has_char "." s = false → before_dot s = s.
Proof.
  induction s as [|a s IH]; [done|]. simpl. case_bool_decide; [done|].
  simpl. intros Hs. by rewrite IH.
Qed.

Lemma stem_no_dot (s : string) : has_char "." s = false → stem s = s.
Proof.
  destruct s as [|a s]; [done|]. simpl. case_bool_decide; [done|]. simpl.
  intros Hs. by rewrite before_dot_no_dot.
Qed.

Lemma stem_all_dots (pre post : string) :
  all_dots pre = true → has_char "." post = false →
  stem (pre +:+ String "." post) = pre +:+ String "." post.
Proof.
  intros Hpre Hpost. induction pre as [|a pre IH].
  - change ("" +:+ String "." post) with (String "." post). simpl.
    by rewrite stem_no_dot.
  - rewrite app_cons. simpl in *. apply andb_prop in Hpre as [Ha Hpre].
    rewrite Ha. by rewrite IH.
Qed.

(** A name with a dot, cut at its last dot. *)
Lemma last_dot_split (name : string) :
  has_char "." name = true →
  ∃ pre post, name = pre +:+ String "." post ∧ has_char "." post = false.
Proof.
  intros Hdot. destruct (rfind_split name ".") as [[Hno _]|(pre & post & ? & ? & _)].
  - congruence.
  - by exists pre, post.
Qed.

Lemma clean_filename_stem (name : string) :
  has_char "/" name = false → clean_filename name = stem name.
Proof.
  remember (String.length name) as n eqn:Hn. revert name Hn.
  induction n as [n IH] using lt_wf_ind. intros name -> Hslash.
  rewrite clean_filename_unfold.
  destruct (has_char "." name) eqn:Hdot.
  - destruct (last_dot_split name Hdot) as (pre & post & -> & Hpost).
    rewrite (splitext_split pre post Hslash Hpost).
    destruct (all_dots pre) eqn:Hpre; simpl.
    + by rewrite stem_all_dots.
    + rewrite stem_app_dot by done. apply (IH (String.length pre)); [|done|].
      * rewrite app_length. simpl. lia.
      * rewrite has_char_app in Hslash. by apply orb_false_elim in Hslash as [? _].
  - rewrite (splitext_no_dot name Hdot). simpl. by rewrite stem_no_dot.
Qed.

Lemma before_dot_prefix (s : string) :
  ∃ removed, s = before_dot s +:+ removed
             ∧ (removed = "" ∨ ∃ t, removed = String "." t).
Proof.
  induction s as [|a s (removed & IH & Hrem)]; [by exists ""; split; [|left]|].
  simpl. case_bool_decide as Ha.
  - subst a. exists (String "." s). split; [done|]. right. by eexists.
  - exists removed. rewrite app_cons. by rewrite <-IH.
Qed.

Lemma stem_prefix (s : string) :
  ∃ removed, s = stem s +:+ removed
             ∧ (removed = "" ∨ ∃ t, removed = String "." t).
Proof.
  induction s as [|a s (removed & IH & Hrem)]; [by exists ""; split; [|left]|].
  simpl. case_bool_decide as Ha.
  - exists removed. rewrite app_cons. by rewrite <-IH.
  - destruct (before_dot_prefix s) as (removed' & Hs & Hrem').
    exists removed'. rewrite app_cons. by rewrite <-Hs.
Qed.

Lemma has_char_before_dot (c : ascii) (s : string) :
  has_char c (before_dot s) = true → has_char c s = true.
Proof.
  induction s as [|a s IH]; [done|]. simpl. case_bool_decide as Ha; [done|]. simpl.
  intros [->|Hc]%orb_prop; [done|]. rewrite IH by done. by rewrite orb_true_r.
Qed.

Lemma has_char_stem (c : ascii) (s : string) :
  has_char c (stem s) = true → has_char c s = true.
Proof.
  induction s as [|a s IH]; [done|]. simpl. case_bool_decide as Ha.
  - simpl. intros [->|Hc]%orb_prop; [done|]. rewrite IH by done. by rewrite orb_true_r.
  - simpl. intros [->|Hc]%orb_prop; [done|].
    rewrite (has_char_before_dot c s) by done. by rewrite orb_true_r.
Qed.

Lemma has_char_before_dot_dot (s : string) : has_char "." (before_dot s) = false.
Proof.
  induction s as [|a s IH]; [done|]. simpl. case_bool_decide as Ha; [done|].
  simpl. rewrite IH. by rewrite bool_decide_eq_false_2.
Qed.

Lemma stem_idemp (s : string) : stem (stem s) = stem s.
Proof.
  induction s as [|a s IH]; [done|]. simpl. case_bool_decide as Ha.
  - simpl. rewrite bool_decide_eq_true_2 by done. by rewrite IH.
  - simpl. rewrite bool_decide_eq_false_2 by done. f_equal.
    apply before_dot_no_dot, has_char_before_dot_dot.
Qed.

Lemma all_dots_stem (s : string) : all_dots s = false → all_dots (stem s) = false.
Proof.
  induction s as [|a s IH]; [done|]. simpl. case_bool_decide as Ha; simpl.
  - intros Hs. rewrite bool_decide_eq_true_2 by done. by apply IH.
  - intros _. by rewrite bool_decide_eq_false_2.
Qed.

Lemma stem_of_dots (s : string) : all_dots s = true → stem s = s.
Proof.
  induction s as [|a s IH]; [done|]. simpl. intros [Ha Hs]%andb_prop.
  rewrite Ha. by rewrite IH.
Qed.

Lemma all_dots_no_slash (s : string) : all_dots s = true → has_char "/" s = false.
Proof.
  induction s as [|a s IH]; [done|]. simpl.
  intros [Ha%bool_decide_eq_true Hs]%andb_prop. subst a.
  rewrite IH by done. by rewrite bool_decide_eq_false_2.
Qed.

(** X5. For a name without [/] (a folder listing yields no other),
    [clean_filename] returns the leading dots of the name followed by the
    characters up to the next dot.  Everything from that dot on is
    dropped -- not only a media extension -- the result is a prefix of the
    name, is empty only for the empty name, and cleaning it again changes
    nothing. *)
Theorem clean_filename_is_stem (name : string) :
  has_char "/" name = false →
  clean_filename name = stem name
  ∧ (∃ removed, name = clean_filename name +:+ removed
                ∧ (removed = "" ∨ ∃ t, removed = String "." t))
  ∧ (name ≠ "" → clean_filename name ≠ "")
  ∧ clean_filename (clean_filename name) = clean_filename name.
Proof.
  intros Hslash. pose proof (clean_filename_stem name Hslash) as Hstem.
  split; [done|]. rewrite Hstem. split; [apply stem_prefix|]. split.
  - destruct name as [|a s]; [done|]. intros _. simpl.
    by case_bool_decide.
  - rewrite clean_filename_stem; [apply stem_idemp|].
    destruct (has_char "/" (stem name)) eqn:Hs; [|done].
    apply has_char_stem in Hs. congruence.
Qed.

Lemma clean_filename_is_stem_witness :
  clean_filename "holiday.2019.final.mp4" = stem "holiday.2019.final.mp4"
  ∧ (∃ removed, "holiday.2019.final.mp4"
                = clean_filename "holiday.2019.final.mp4" +:+ removed
                ∧ (removed = "" ∨ ∃ t, removed = String "." t))
  ∧ ("holiday.2019.final.mp4" ≠ "" → clean_filename "holiday.2019.final.mp4" ≠ "")
  ∧ clean_filename (clean_filename "holiday.2019.final.mp4")
    = clean_filename "holiday.2019.final.mp4".
Proof.
  apply (clean_filename_is_stem "holiday.2019.final.mp4"). reflexivity.
Defined.

(** X6. The target name of a file is its own target name: for a name
    without [/] that has a character other than a dot, cleaning
    [clean_filename name + ".gif"] gives [clean_filename name] again, so a
    GIF that carries its target name counts as correctly named.  A name
    made of dots only is the exception: its target name is the name with
    [.gif] appended, and the target name of that is one [.gif] longer
    again. *)
Theorem clean_filename_target_stable (name : string) :
  has_char "/" name = false →
  (all_dots name = false →
   clean_filename (clean_filename name +:+ ".gif") = clean_filename name
   ∧ ∀ content,
       entry_normalized (clean_filename name +:+ ".gif") (File content)
       = has_gif_signature content)
  ∧ (all_dots name = true →
     clean_filename name = name
     ∧ clean_filename (name +:+ ".gif") = name +:+ ".gif").
Proof.
  intros Hslash. split.
  - intros Hdots.
    assert (clean_filename (clean_filename name +:+ ".gif") = clean_filename name) as Hfix.
    { rewrite (clean_filename_stem name Hslash).
      rewrite clean_filename_stem.
      - change ".gif" with (String "." "gif").
        rewrite stem_app_dot by by apply all_dots_stem. apply stem_idemp.
      - rewrite has_char_app. simpl.
        destruct (has_char "/" (stem name)) eqn:Hs; [|done].
        apply has_char_stem in Hs. congruence. }
    split; [done|]. intros content. unfold entry_normalized. rewrite Hfix.
    rewrite bool_decide_eq_true_2 by done. by rewrite andb_true_r.
  - intros Hdots. rewrite (clean_filename_stem name Hslash).
    split; [by apply stem_of_dots|].
    rewrite clean_filename_stem.
    + change ".gif" with (String "." "gif"). by apply stem_all_dots.
    + rewrite has_char_app. simpl. by rewrite Hslash.
Qed.

Lemma clean_filename_target_stable_witness :
  (clean_filename (clean_filename "b.mp4.gif" +:+ ".gif") = clean_filename "b.mp4.gif"
   ∧ ∀ content,
       entry_normalized (clean_filename "b.mp4.gif" +:+ ".gif") (File content)
       = has_gif_signature content)
  ∧ (clean_filename "..." = "..."
     ∧ clean_filename ("..." +:+ ".gif") = "..." +:+ ".gif").
Proof.
  split.
  - destruct (clean_filename_target_stable "b.mp4.gif") as [Hstable _].
    + reflexivity.
    + apply Hstable. reflexivity.
  - destruct (clean_filename_target_stable "...") as [_ Hdots].
    + reflexivity.
    + apply Hdots. reflexivity.
Defined.

(** ** What a loop iteration can change *)

Section Frame.

Context (env : Env).

Lemma os_system_files (input output name : string) (w : World) :
  name ≠ output →
  files (os_system env input output w).2 !! name = files w !! name.
Proof.
  intros Hne. unfold os_system. destruct (ffmpeg env w input output) as [status [content|]];
    simpl; [|done]. by rewrite lookup_insert_ne.
Qed.

Lemma move_lookup (src dst name : string) (fs fs' : gmap string entry) :
  move src dst fs = Some fs' → name ≠ src → name ≠ dst → fs' !! name = fs !! name.
Proof.
  unfold move. destruct (fs !! src) as [e|]; [|done]. intros [= <-] Hs Hd.
  rewrite lookup_insert_ne by done. by rewrite lookup_delete_ne.
Qed.

Lemma os_replace_files (src dst name : string) (w : World) :
  name ≠ src → name ≠ dst →
  files (os_replace env src dst w).2 !! name = files w !! name.
Proof.
  intros Hs Hd. unfold os_replace. destruct (replace_fails env w src dst); [done|].
  destruct (move src dst (files w)) as [fs|] eqn:Hm; [|done]. simpl.
  by eapply move_lookup.
Qed.



(** [convert_to_gif] changes the entry at the output path and, when source
    and target are one path, at the temporary path; nothing else. *)
Lemma convert_to_gif_frame (input_path output_path name : string) (w : World) :
  name ≠ output_path →
  (input_path = output_path → name ≠ output_path +:+ ".tmp.gif") →
  files (convert_to_gif env input_path output_path w).2 !! name = files w !! name.
Proof.
  intros Hout Htemp. unfold convert_to_gif, bind, try_except.
  case_bool_decide as Hsame; simpl.
  - specialize (Htemp Hsame).
    pose proof (os_system_files input_path (output_path +:+ ".tmp.gif") name w Htemp) as Hsys.
    destruct (os_system env input_path (output_path +:+ ".tmp.gif") w) as [[status|e] w1];
      simpl in Hsys; [|done].
    case_bool_decide; [|done].
    pose proof (os_replace_files (output_path +:+ ".tmp.gif") output_path name w1 Htemp Hout)
      as Hrep.
    destruct (os_replace env (output_path +:+ ".tmp.gif") output_path w1) as [[[]|e] w2];
      simpl in *; congruence.
  - pose proof (os_system_files input_path output_path name w Hout) as Hsys.
    by destruct (os_system env input_path output_path w) as [[status|e] w1].
Qed.

(** A conversion that does not return 0 leaves the source as it was. *)
Lemma convert_to_gif_keeps_source (input_path output_path : string) (w : World) :
  (convert_to_gif env input_path output_path w).1 ≠ Ok 0 →
  files (convert_to_gif env input_path output_path w).2 !! input_path
  = files w !! input_path.
Proof.
  intros Hres. destruct (decide (input_path = output_path)) as [Hsame|Hdiff].
  - subst output_path. revert Hres. unfold convert_to_gif, bind, try_except.
    rewrite bool_decide_eq_true_2 by done. simpl.
    pose proof (temp_name_differs input_path) as Htemp.
    pose proof (os_system_files input_path (input_path +:+ ".tmp.gif") input_path w
                  (not_eq_sym Htemp)) as Hsys.
    destruct (os_system env input_path (input_path +:+ ".tmp.gif") w) as [[status|e] w1];
      simpl in Hsys; [|done].
    case_bool_decide; [|done]. subst status.
    unfold os_replace. destruct (replace_fails env w1 _ input_path); [done|].
    destruct (move (input_path +:+ ".tmp.gif") input_path (files w1)); [|done].
    simpl. intros Hres. by destruct Hres.
  - apply convert_to_gif_frame; [done|]. by intros ?.
Qed.



Lemma bind_ok {A B} (m : M A) (k : A → M B) (w w0 : World) (a : A) :
  m w = (Ok a, w0) → bind m k w = k a w0.
Proof. intros Hm. unfold bind. by rewrite Hm. Qed.


End Frame.



(** ** Renaming a GIF, and a conversion that fails *)

Section Branches.

Context (env : Env).

Lemma detect_file_type_gif_readable (path : string) (w : World) (content : bytes) :
  files w !! path = Some (File content) →
  open_fails env w path = false →
  has_gif_signature content = true →
  detect_file_type env path w = (Ok (Some gif), record (EvOpen path) w).
Proof.
  intros Hf Ho Hgif. unfold detect_file_type, try_except, bind.
  rewrite (open_read_ok env path 32 w _ Hf Ho).
  unfold has_gif_signature in Hgif.
  rewrite !startswith_take by (simpl; lia). by rewrite Hgif.
Qed.

(** The calls [convert_to_gif] makes. *)
Lemma convert_to_gif_log (input_path output_path : string) (w : World) :
  ∃ evs, log (convert_to_gif env input_path output_path w).2 = evs ++ log w
         ∧ ∀ path, EvUnlink path ∉ evs.
Proof.
  unfold convert_to_gif, bind, try_except.
  destruct (os_system_result env input_path
              (default output_path
                 (if bool_decide (input_path = output_path)
                  then Some (output_path +:+ ".tmp.gif") else None)) w)
    as (status & w1 & -> & Hlog).
  assert (∀ ev, (∀ path, ev ≠ EvUnlink path) → ∀ path, EvUnlink path ∉ [ev]) as Hone.
  { intros ev Hev path Hin. apply list_elem_of_singleton in Hin. by eapply Hev. }
  case_bool_decide; [|eexists [_]; split; [exact Hlog|by apply Hone]].
  case_bool_decide; [|eexists [_]; split; [exact Hlog|by apply Hone]].
  pose proof (os_replace_log env (output_path +:+ ".tmp.gif") output_path w1) as Hrep.
  destruct (os_replace env (output_path +:+ ".tmp.gif") output_path w1) as [[[]|e] w2];
    unfold ret; simpl in Hrep |- *; eexists [_; _]; rewrite Hrep, Hlog;
    (split; [reflexivity|]);
    intros path Hin; apply list_elem_of_In in Hin; simpl in Hin; intuition discriminate.
Qed.

End Branches.

(** X8. A GIF that does not carry its target name is renamed to it: when
    the file can be read and the rename succeeds, its content is found
    unchanged under the target name, the old name is gone, [renamed] is
    incremented, and the calls made are one open and one rename.  The
    target name was free before, so the rename overwrites nothing. *)
Theorem gif_rename_moves_content (env : Env) (file : string) (r : Run)
    (w : World) (content : bytes) :
  let final_name := resolve_name (files w) file (clean_filename file) in
  files w !! file = Some (File content) →
  has_gif_signature content = true →
  open_fails env w file = false →
  rename_fails env (record (EvOpen file) w) file final_name = false →
  file ≠ final_name →
  files w !! final_name = None
  ∧ process_file env file r w
    = (Ok (add_processed final_name (with_stats (incr Renamed) r)),
       mkWorld (folder_exists w)
         (<[final_name := File content]> (delete file (files w)))
         (EvRename file final_name :: EvOpen file :: log w)).
Proof.
  intros final_name Hf Hgif Ho Hren Hne. split.
  - destruct (resolve_name_result (files w) file (clean_filename file))
      as (j & Hres & _ & Hfree & _).
    fold final_name in Hres. rewrite <-Hres in Hfree.
    by apply taken_false in Hfree as [?|?].
  - unfold process_file.
    rewrite (bind_ok _ _ _ _ _ (detect_file_type_gif_readable env file w content Hf Ho Hgif)).
    simpl. unfold bind, get_files. simpl. fold final_name.
    unfold gif_branch, try_except, bind. rewrite bool_decide_eq_true_2 by done.
    unfold path_rename, move. simpl. rewrite Hren, Hf. done.
Qed.

Lemma gif_rename_moves_content_witness :
  files (folder scenario) !! "b.gif" = None
  ∧ process_file calm "b.mp4.gif" new_run (folder scenario)
    = (Ok (add_processed "b.gif" (with_stats (incr Renamed) new_run)),
       mkWorld true
         (<["b.gif" := File GIF_BYTES]> (delete "b.mp4.gif" scenario))
         [EvRename "b.mp4.gif" "b.gif"; EvOpen "b.mp4.gif"]).
Proof.
  apply (gif_rename_moves_content calm "b.mp4.gif" new_run (folder scenario) GIF_BYTES).
  - reflexivity.
  - reflexivity.
  - reflexivity.
  - reflexivity.
  - vm_compute. discriminate.
Defined.

(** X9. When the conversion of a file of a convertible type is counted as
    failed, the source file is in the folder exactly as it was before the
    iteration, and [unlink] was not called: the original is deleted only
    after a conversion that succeeded. *)
Theorem failed_conversion_keeps_source (env : Env) (file : string) (r r' : Run)
    (w w0 w' : World) (file_type : file_type) :
  detect_file_type env file w = (Ok (Some file_type), w0) →
  file_type ∈ convertible →
  process_file env file r w = (Ok r', w') →
  stats r' = incr Failed (stats r) →
  files w' !! file = files w !! file
  ∧ ∃ evs, log w' = evs ++ log w ∧ ∀ path, EvUnlink path ∉ evs.
Proof.
  intros Hd Hin Hrun Hst.
  rewrite (process_file_convertible env file r w w0 file_type Hd Hin) in Hrun.
  destruct (detect_file_type_world env file w) as (t & k & Hd').
  assert (w0 = Nat.iter (S k) (record (EvOpen file)) w) as Hw0 by congruence.
  clear Hd Hd'.
  set (final_name := resolve_name (files w0) file (clean_filename file)) in *.
  unfold bind, convert_branch in Hrun. unfold bind at 1 in Hrun.
  pose proof (convert_to_gif_keeps_source env file final_name w0) as Hkeep.
  destruct (convert_to_gif_log env file final_name w0) as (evs & Hlog & Hnone).
  destruct (convert_to_gif env file final_name w0) as [[result|e] w1];
    simpl in Hkeep, Hlog; [|discriminate Hrun].
  case_bool_decide as Hzero.
  - exfalso. unfold bind, try_except in Hrun.
    assert (stats r' = incr Converted (stats r)) as Hconv.
    { case_bool_decide; [destruct (path_unlink env file w1) as [[[]|e] w2]|];
        by injection Hrun as <- _. }
    rewrite Hconv in Hst. by apply incr_inj in Hst.
  - injection Hrun as _ <-. split.
    + rewrite Hkeep by (intros [= ?]; done). rewrite Hw0. by rewrite iter_record_files.
    + exists (evs ++ replicate (S k) (EvOpen file)). split.
      * rewrite Hlog, Hw0. rewrite iter_record_log. by rewrite app_assoc.
      * intros path [Hev|Hopen]%elem_of_app; [by eapply Hnone|].
        by apply elem_of_replicate in Hopen as [? _].
Qed.

Lemma failed_conversion_keeps_source_witness :
  files (process_file ffmpeg_fails "a.mp4" new_run (folder scenario)).2 !! "a.mp4"
  = files (folder scenario) !! "a.mp4"
  ∧ ∃ evs,
      log (process_file ffmpeg_fails "a.mp4" new_run (folder scenario)).2
      = evs ++ log (folder scenario)
      ∧ ∀ path, EvUnlink path ∉ evs.
Proof.
  apply (failed_conversion_keeps_source ffmpeg_fails "a.mp4" new_run
           (with_stats (incr Failed) (add_processed "a.gif" new_run))
           (folder scenario)
           (detect_file_type ffmpeg_fails "a.mp4" (folder scenario)).2
           (process_file ffmpeg_fails "a.mp4" new_run (folder scenario)).2 mp4).
  - reflexivity.
  - unfold convertible. apply list_elem_of_In. simpl. tauto.
  - reflexivity.
  - reflexivity.
Defined.

(** ** The buckets of a run *)

Section Buckets.

Context (env : Env).

(** The ways a loop iteration can change the run state. *)
Lemma process_file_outcomes (file : string) (r : Run) (w : World) :
  ∃ w',
    process_file env file r w = (Ok (with_stats (incr Skipped) r), w')
    ∨ process_file env file r w = (Ok (with_stats (incr Skipped) (add_html file r)), w')
    ∨ process_file env file r w
      = (Ok (with_stats (incr Skipped) (add_text_error file r)), w')
    ∨ process_file env file r w
      = (Ok (with_stats (incr Skipped) (add_text_file file r)), w')
    ∨ process_file env file r w
      = (Ok (with_stats (incr Skipped) (add_unknown file r)), w')
    ∨ ∃ key final_name,
        process_file env file r w
        = (Ok (add_processed final_name (with_stats (incr key) r)), w').
Proof.
  unfold process_file.
  destruct (detect_file_type_world env file w) as (t & k & Hd).
  rewrite (bind_ok _ _ _ _ _ Hd).
  destruct t as [file_type|]; [|eexists; by left].
  destruct file_type; simpl;
    first
      [ by eexists; right; left
      | by eexists; right; right; left
      | by eexists; right; right; right; left
      | by eexists; right; right; right; right; left
      | unfold bind, get_files; simpl;
        match goal with
        | |- context [gif_branch env ?f ?n ?r ?w] =>
            destruct (gif_branch_total env f n r w) as (key & w2 & -> & _)
        | |- context [convert_branch env ?f ?n ?r ?w] =>
            destruct (convert_branch_total env f n r w) as (key & w2 & -> & _ & _)
        end;
        exists w2; do 5 right; by eexists key, _ ].
Qed.

(** One iteration adds at most one name: the file to one bucket, or the
    target name to [processed]. *)
Lemma process_file_step (file : string) (r : Run) (w : World) :
  ∃ r1 w1 h te t u p,
    process_file env file r w = (Ok r1, w1)
    ∧ html_files r1 = html_files r ++ h
    ∧ text_error_files r1 = text_error_files r ++ te
    ∧ text_files r1 = text_files r ++ t
    ∧ unknown_files r1 = unknown_files r ++ u
    ∧ processed r1 = processed r ++ p
    ∧ h `sublist_of` [file] ∧ te `sublist_of` [file]
    ∧ t `sublist_of` [file] ∧ u `sublist_of` [file]
    ∧ h ++ te ++ t ++ u ⊆+ [file]
    ∧ (length (h ++ te ++ t ++ u) + length p ≤ 1)%nat
    ∧ (skipped (stats r) + length (h ++ te ++ t ++ u) ≤ skipped (stats r1))%nat
    ∧ (converted (stats r1) + renamed (stats r1) + failed (stats r1)
       ≤ converted (stats r) + renamed (stats r) + failed (stats r) + length p)%nat.
Proof.
  destruct (process_file_outcomes file r w)
    as (w1 & [-> | [-> | [-> | [-> | [-> | (key & final_name & ->)]]]]]).
  - eexists _, w1, [], [], [], [], []. simpl. rewrite !app_nil_r.
    split_and?; try done; try apply sublist_nil_l; try apply submseteq_nil_l;
      simpl; lia.
  - eexists _, w1, [file], [], [], [], []. simpl. rewrite !app_nil_r.
    split_and?; try done; try apply sublist_nil_l; simpl; lia.
  - eexists _, w1, [], [file], [], [], []. simpl. rewrite !app_nil_r.
    split_and?; try done; try apply sublist_nil_l; simpl; lia.
  - eexists _, w1, [], [], [file], [], []. simpl. rewrite !app_nil_r.
    split_and?; try done; try apply sublist_nil_l; simpl; lia.
  - eexists _, w1, [], [], [], [file], []. simpl. rewrite !app_nil_r.
    split_and?; try done; try apply sublist_nil_l; simpl; lia.
  - eexists _, w1, [], [], [], [], [final_name]. simpl. rewrite !app_nil_r.
    split_and?; try done; try apply sublist_nil_l; try apply submseteq_nil_l;
      destruct key; simpl; lia.
Qed.

Lemma process_files_buckets (listed : list string) (r : Run) (w : World) :
  ∃ r' w' h te t u p,
    process_files env listed r w = (Ok r', w')
    ∧ html_files r' = html_files r ++ h
    ∧ text_error_files r' = text_error_files r ++ te
    ∧ text_files r' = text_files r ++ t
    ∧ unknown_files r' = unknown_files r ++ u
    ∧ processed r' = processed r ++ p
    ∧ h `sublist_of` listed ∧ te `sublist_of` listed
    ∧ t `sublist_of` listed ∧ u `sublist_of` listed
    ∧ h ++ te ++ t ++ u ⊆+ listed
    ∧ (length (h ++ te ++ t ++ u) + length p ≤ length listed)%nat
    ∧ (skipped (stats r) + length (h ++ te ++ t ++ u) ≤ skipped (stats r'))%nat
    ∧ (converted (stats r') + renamed (stats r') + failed (stats r')
       ≤ converted (stats r) + renamed (stats r) + failed (stats r) + length p)%nat.
Proof.
  revert r w. induction listed as [|file rest IH]; intros r w.
  - exists r, w, [], [], [], [], []. simpl. rewrite !app_nil_r.
    split_and?; try done; simpl; lia.
  - cbn [process_files].
    destruct (process_file_step file r w)
      as (r1 & w1 & h1 & te1 & t1 & u1 & p1 & Hrun & Hh & Hte & Ht & Hu & Hp
          & Sh & Ste & St & Su & Hsub & Hlen & Hsk & Hcrf).
    rewrite (bind_ok _ _ _ _ _ Hrun).
    destruct (IH r1 w1)
      as (r' & w' & h & te & t & u & p & -> & Hh' & Hte' & Ht' & Hu' & Hp'
          & Sh' & Ste' & St' & Su' & Hsub' & Hlen' & Hsk' & Hcrf').
    exists r', w', (h1 ++ h), (te1 ++ te), (t1 ++ t), (u1 ++ u), (p1 ++ p).
    rewrite Hh', Hte', Ht', Hu', Hp', Hh, Hte, Ht, Hu, Hp. rewrite <-!app_assoc.
    split; [done|]. do 5 (split; [done|]).
    do 4 (split; [by apply (sublist_app _ [file])|]).
    split.
    { change (file :: rest) with ([file] ++ rest).
      etrans; [|by apply submseteq_app]. apply Permutation_submseteq.
      solve_Permutation. }
    rewrite !length_app in *. simpl. split; [lia|]. split; lia.
Qed.

End Buckets.

(** ** Deleting a bucket *)

Section Review.

Context (env : Env).

(** The two ways [path.unlink()] can end. *)
Lemma path_unlink_cases (path : string) (w : World) :
  (∃ content,
      files w !! path = Some (File content)
      ∧ path_unlink env path w
        = (Ok (), mkWorld (folder_exists w) (delete path (files w))
                    (EvUnlink path :: log w)))
  ∨ ∃ e, path_unlink env path w = (Raise e, record (EvUnlink path) w).
Proof.
  unfold path_unlink. destruct (files w !! path) as [[content|]|] eqn:Hf.
  - destruct (unlink_fails env w path); [right; by eexists|left; by eexists].
  - right. by eexists.
  - right. by eexists.
Qed.

Lemma size_delete_file (path : string) (fs : gmap string entry) (e : entry) :
  fs !! path = Some e → size fs = S (size (delete path fs)).
Proof.
  intros Hf. rewrite <-(insert_delete_id fs path e Hf) at 1.
  apply map_size_insert_None, lookup_delete_eq.
Qed.

Lemma delete_all_effect (bucket : list string) (deleted : nat) (w : World) :
  ∃ deleted' w',
    delete_all env bucket deleted w = (Ok deleted', w')
    ∧ folder_exists w' = folder_exists w
    ∧ log w' = (EvUnlink <$> reverse bucket) ++ log w
    ∧ (size (files w') ≤ size (files w))%nat
    ∧ deleted' = (deleted + (size (files w) - size (files w')))%nat
    ∧ (deleted' ≤ deleted + length bucket)%nat
    ∧ ∀ name, files w' !! name = files w !! name
              ∨ (name ∈ bucket ∧ files w' !! name = None).
Proof.
  revert deleted w. induction bucket as [|path rest IH]; intros deleted w.
  - exists deleted, w. simpl. split_and?; try done; try lia. intros name. by left.
  - cbn [delete_all]. unfold bind, try_except.
    destruct (path_unlink_cases path w) as [(content & Hf & ->)|(e & ->)]; unfold ret; simpl.
    + destruct (IH (S deleted)
                  (mkWorld (folder_exists w) (delete path (files w))
                     (EvUnlink path :: log w)))
        as (d & w' & -> & Hex & Hlog & Hsize & Hd & Hle & Hfiles).
      simpl in *. pose proof (size_delete_file path (files w) _ Hf) as Hs.
      exists d, w'. split_and?; try done; try lia.
      * rewrite Hlog, reverse_cons, fmap_app, <-app_assoc. done.
      * intros name. destruct (Hfiles name) as [Heq|[Hin Hnone]].
        -- destruct (decide (name = path)) as [->|Hne].
           ++ right. split; [by left|]. by rewrite Heq, lookup_delete_eq.
           ++ left. by rewrite Heq, lookup_delete_ne.
        -- right. split; [by right|done].
    + destruct (IH deleted (record (EvUnlink path) w))
        as (d & w' & -> & Hex & Hlog & Hsize & Hd & Hle & Hfiles).
      simpl in *. exists d, w'. split_and?; try done; try lia.
      * rewrite Hlog, reverse_cons, fmap_app, <-app_assoc. done.
      * intros name. destruct (Hfiles name) as [Heq|[Hin Hnone]]; [by left|].
        right. split; [by right|done].
Qed.

Lemma review_effect (bucket : list string) (w : World) :
  ∃ w',
    review env bucket w = (Ok (), w')
    ∧ (bucket = [] → w' = w)
    ∧ (∀ name, files w' !! name = files w !! name
               ∨ (name ∈ bucket ∧ files w' !! name = None))
    ∧ ∃ evs, log w' = evs ++ log w
             ∧ Forall (λ ev, ev = EvInput ∨ ∃ name, name ∈ bucket ∧ ev = EvUnlink name)
                      evs.
Proof.
  destruct bucket as [|path rest].
  { exists w. split_and?; try done; [intros name; by left|]. by exists []. }
  unfold review, bind, input. case_if.
  - destruct (delete_all_effect (path :: rest) 0 (record EvInput w))
      as (d & w' & -> & _ & Hlog & _ & _ & _ & Hfiles).
    exists w'. split_and?; try done.
    exists ((EvUnlink <$> reverse (path :: rest)) ++ [EvInput]). split.
    + rewrite Hlog. simpl. by rewrite <-app_assoc.
    + apply Forall_app. split; [|by apply Forall_singleton; left].
      apply Forall_fmap, Forall_forall. intros name Hin. right. exists name.
      split; [|done]. by rewrite elem_of_reverse in Hin.
  - exists (record EvInput w). split_and?; try done; [intros name; by left|].
    exists [EvInput]. split; [done|]. by apply Forall_singleton; left.
Qed.

End Review.

Lemma submseteq_NoDup_l (l k : list string) : l ⊆+ k → NoDup k → NoDup l.
Proof.
  intros [k' Hperm]%submseteq_Permutation Hk. rewrite Hperm in Hk.
  by apply NoDup_app in Hk as [? _].
Qed.

(** X10. The loop over the listed files, started with empty lists, fills
    the four buckets with listed files only, each in listing order and no
    file in two places: the buckets together are a sub-multiset of the
    listing, so with a duplicate-free listing they are pairwise disjoint.
    Every listed file is counted in at most one of the buckets and
    [processed]; every bucket entry was counted as skipped; and at least
    as many names were added to [processed] as files were counted
    converted, renamed or failed. *)
Theorem buckets_partition_listed (env : Env) (listed : list string) (w : World) :
  ∃ r w',
    process_files env listed new_run w = (Ok r, w')
    ∧ html_files r `sublist_of` listed
    ∧ text_error_files r `sublist_of` listed
    ∧ text_files r `sublist_of` listed
    ∧ unknown_files r `sublist_of` listed
    ∧ buckets r ⊆+ listed
    ∧ (NoDup listed → NoDup (buckets r))
    ∧ (length (buckets r) + length (processed r) ≤ length listed)%nat
    ∧ (length (buckets r) ≤ skipped (stats r))%nat
    ∧ (converted (stats r) + renamed (stats r) + failed (stats r)
       ≤ length (processed r))%nat.
Proof.
  destruct (process_files_buckets env listed new_run w)
    as (r & w' & h & te & t & u & p & Hrun & Hh & Hte & Ht & Hu & Hp
        & Sh & Ste & St & Su & Hsub & Hlen & Hsk & Hcrf).
  simpl in *. exists r, w'. unfold buckets. rewrite Hh, Hte, Ht, Hu, Hp.
  split_and?; try done; try lia.
  by apply submseteq_NoDup_l.
Qed.

Lemma buckets_partition_listed_witness :
  ∃ r w',
    process_files hostile (list_files scenario) new_run (folder scenario) = (Ok r, w')
    ∧ NoDup (buckets r).
Proof.
  destruct (buckets_partition_listed hostile (list_files scenario) (folder scenario))
    as (r & w' & Hrun & _ & _ & _ & _ & _ & Hdup & _).
  exists r, w'. split; [exact Hrun|]. apply Hdup. apply list_files_NoDup.
Defined.

(** X11. The loop that deletes a bucket never raises and calls [unlink]
    once for every member, in order.  The count it returns has grown by
    exactly the number of entries that disappeared from the folder, which
    is at most the length of the bucket; an entry is either unchanged or a
    member of the bucket that is now gone. *)
Theorem delete_all_counts (env : Env) (bucket : list string) (deleted : nat)
    (w : World) :
  ∃ deleted' w',
    delete_all env bucket deleted w = (Ok deleted', w')
    ∧ log w' = (EvUnlink <$> reverse bucket) ++ log w
    ∧ (size (files w') ≤ size (files w))%nat
    ∧ deleted' = (deleted + (size (files w) - size (files w')))%nat
    ∧ (deleted' ≤ deleted + length bucket)%nat
    ∧ ∀ name, files w' !! name = files w !! name
              ∨ (name ∈ bucket ∧ files w' !! name = None).
Proof.
  destruct (delete_all_effect env bucket deleted w)
    as (d & w' & Hrun & _ & Hlog & Hsize & Hd & Hle & Hfiles).
  by exists d, w'.
Qed.

Lemma buckets_disjoint (env : Env) (file : string) (rest : list string)
    (w : World) (r : Run) (w1 : World) :
  NoDup (file :: rest) →
  process_files env (file :: rest) new_run w = (Ok r, w1) →
  ∀ name, name ∈ html_files r ++ text_error_files r →
          name ∈ text_files r ++ unknown_files r → False.
Proof.
  intros Hdup Hrun name Hflag Hkept.
  destruct (process_files_buckets env (file :: rest) new_run w)
    as (r' & w' & h & te & t & u & p & Hrun' & Hh & Hte & Ht & Hu & _
        & _ & _ & _ & _ & Hsub & _).
  rewrite Hrun in Hrun'. injection Hrun' as <- <-. simpl in *.
  rewrite Hh, Hte in Hflag. rewrite Ht, Hu in Hkept.
  apply submseteq_NoDup_l in Hsub; [|done].
  rewrite (app_assoc h te) in Hsub. apply NoDup_app in Hsub as (_ & Hdis & _).
  by apply (Hdis name).
Qed.

(** X12. After the summary a run only asks the operator and deletes what
    was flagged: every call is an [input] or an [unlink] of a member of the
    HTML or the placeholder-text bucket, every entry of the folder is
    either as the loop left it or a member of those two buckets that is
    now gone, and a file in the text-file or the unknown bucket is never
    deleted by the review.  With both buckets empty nothing is asked. *)
Theorem review_deletes_only_flagged (env : Env) (w w1 : World) (r : Run) :
  folder_exists w = true →
  list_files (files w) ≠ [] →
  process_files env (list_files (files w)) new_run w = (Ok r, w1) →
  ∃ w',
    process_folder env w = (Ok (Finished r), w')
    ∧ (∀ name, files w' !! name = files w1 !! name
               ∨ (name ∈ html_files r ++ text_error_files r
                  ∧ files w' !! name = None))
    ∧ (∀ name, name ∈ text_files r ++ unknown_files r →
               files w' !! name = files w1 !! name)
    ∧ (∃ evs, log w' = evs ++ EvSummary (stats r) :: log w1
              ∧ Forall (λ ev, ev = EvInput
                              ∨ ∃ name, name ∈ html_files r ++ text_error_files r
                                        ∧ ev = EvUnlink name) evs)
    ∧ (html_files r = [] → text_error_files r = [] →
       w' = record (EvSummary (stats r)) w1).
Proof.
  intros Hex Hne Hrun. unfold process_folder. rewrite Hex. simpl.
  destruct (list_files (files w)) as [|file rest] eqn:Hl; [done|].
  rewrite (bind_ok _ _ _ _ _ Hrun).
  rewrite (bind_ok (print_summary (stats r)) _ w1 (record (EvSummary (stats r)) w1) ())
    by done.
  destruct (review_effect env (html_files r) (record (EvSummary (stats r)) w1))
    as (w2 & Hr1 & Hnil1 & Hf1 & evs1 & Hlog1 & Hev1).
  rewrite (bind_ok _ _ _ _ _ Hr1).
  destruct (review_effect env (text_error_files r) w2)
    as (w3 & Hr2 & Hnil2 & Hf2 & evs2 & Hlog2 & Hev2).
  rewrite (bind_ok _ _ _ _ _ Hr2). exists w3. split; [done|].
  assert (∀ name, files w3 !! name = files w1 !! name
                  ∨ (name ∈ html_files r ++ text_error_files r
                     ∧ files w3 !! name = None)) as Hfiles.
  { intros name. destruct (Hf2 name) as [Heq2|[Hin2 Hnone2]].
    - destruct (Hf1 name) as [Heq1|[Hin1 Hnone1]].
      + left. by rewrite Heq2, Heq1.
      + right. split; [apply elem_of_app; by left|]. by rewrite Heq2.
    - right. split; [apply elem_of_app; by right|done]. }
  split; [exact Hfiles|]. split.
  { intros name Hin. destruct (Hfiles name) as [Heq|[Hflag _]]; [done|]. exfalso.
    apply (buckets_disjoint env file rest w r w1) with (name := name); try done.
    rewrite <-Hl. apply list_files_NoDup. }
  split.
  { exists (evs2 ++ evs1). split.
    - rewrite Hlog2, Hlog1. simpl. by rewrite <-app_assoc.
    - apply Forall_app. split.
      + eapply Forall_impl; [exact Hev2|]. intros ev [->|(name & Hin & ->)]; [by left|].
        right. exists name. split; [apply elem_of_app; by right|done].
      + eapply Forall_impl; [exact Hev1|]. intros ev [->|(name & Hin & ->)]; [by left|].
        right. exists name. split; [apply elem_of_app; by left|done]. }
  intros Hh Hte. rewrite (Hnil2 Hte). by apply Hnil1.
Qed.

Lemma review_deletes_only_flagged_witness :
  ∃ r w1 w',
    process_files eager (list_files scenario) new_run (folder scenario) = (Ok r, w1)
    ∧ process_folder eager (folder scenario) = (Ok (Finished r), w')
    ∧ (∀ name, files w' !! name = files w1 !! name
               ∨ (name ∈ html_files r ++ text_error_files r
                  ∧ files w' !! name = None))
    ∧ (∀ name, name ∈ text_files r ++ unknown_files r →
               files w' !! name = files w1 !! name).
Proof.
  assert (∃ r w1,
             process_files eager (list_files (files (folder scenario))) new_run
               (folder scenario) = (Ok r, w1)) as (r & w1 & Hrun).
  { vm_compute. by eexists _, _. }
  destruct (review_deletes_only_flagged eager (folder scenario) w1 r)
    as (w' & Hfolder & Hfiles & Hkept & _).
  - reflexivity.
  - vm_compute. discriminate.
  - exact Hrun.
  - exists r, w1, w'. split; [exact Hrun|]. split; [exact Hfolder|].
    split; [exact Hfiles|exact Hkept].
Defined.

(** ** The status [convert_to_gif] returns *)



(** ** When nothing fails *)

Section NoFailure.

Context (env : Env).

Hypothesis rename_works : ∀ w src dst, rename_fails env w src dst = false.
Hypothesis replace_works : ∀ w src dst, replace_fails env w src dst = false.
Hypothesis ffmpeg_works : ∀ w input output, ∃ content, ffmpeg env w input output = (0, Some content).

(** A file that got a tag was there to be read. *)
Lemma detect_file_type_tag_exists (path : string) (w w0 : World) (tag : file_type) :
  detect_file_type env path w = (Ok (Some tag), w0) →
  ∃ content, files w !! path = Some (File content).
Proof.
  unfold detect_file_type, try_except, bind.
  destruct (open_read env path 32 w) as [[header|e] w1] eqn:Hread; [|done].
  intros _. apply open_read_inv in Hread as (content & Hf & _). by exists content.
Qed.

Lemma convert_to_gif_works (input_path output_path : string) (w : World) :
  (convert_to_gif env input_path output_path w).1 = Ok 0.
Proof.
  apply convert_to_gif_success.
  - by destruct (ffmpeg_works w input_path
                   (if bool_decide (input_path = output_path)
                    then output_path +:+ ".tmp.gif" else output_path)) as [content ->].
  - intros _. unfold os_system, os_replace, move.
    destruct (ffmpeg_works w input_path (output_path +:+ ".tmp.gif")) as [content ->].
    simpl. rewrite replace_works. by rewrite lookup_insert_eq.
Qed.

Lemma convert_branch_works (file final_name : string) (r : Run) (w : World) :
  ∃ w', convert_branch env file final_name r w
        = (Ok (with_stats (incr Converted) r), w').
Proof.
  unfold convert_branch, bind, try_except.
  pose proof (convert_to_gif_works file final_name w) as Hzero.
  destruct (convert_to_gif env file final_name w) as [res w1]. simpl in Hzero. subst res.
  rewrite bool_decide_eq_true_2 by done.
  case_bool_decide; [|by eexists].
  destruct (path_unlink env file w1) as [[[]|e] w2]; by eexists.
Qed.

Lemma gif_branch_works (file final_name : string) (r : Run) (w : World) (content : bytes) :
  files w !! file = Some (File content) →
  ∃ key w', gif_branch env file final_name r w = (Ok (with_stats (incr key) r), w')
            ∧ key ≠ Failed.
Proof.
  intros Hf. unfold gif_branch, bind, try_except.
  case_bool_decide; [|by exists Skipped; eexists].
  unfold path_rename, move. rewrite rename_works, Hf. by exists Renamed; eexists.
Qed.

Lemma process_file_works (file : string) (r : Run) (w : World) :
  ∃ r' w', process_file env file r w = (Ok r', w')
           ∧ failed (stats r') = failed (stats r).
Proof.
  destruct (detect_file_type_world env file w) as (t & k & Hd).
  unfold process_file. rewrite (bind_ok _ _ _ _ _ Hd).
  destruct t as [file_type|]; [|by eexists _, _].
  destruct (detect_file_type_tag_exists file w _ file_type Hd) as [content Hf].
  set (w0 := Nat.iter (S k) (record (EvOpen file)) w).
  assert (files w0 !! file = Some (File content)) as Hf0
    by (unfold w0; by rewrite iter_record_files).
  set (final_name := resolve_name (files w0) file (clean_filename file)).
  destruct (gif_branch_works file final_name r w0 content Hf0)
    as (key & wg & Hgif & Hkey).
  destruct (convert_branch_works file final_name r w0) as (wc & Hconv).
  destruct file_type;
    first
      [ by eexists _, _
      | exists (add_processed final_name (with_stats (incr key) r)), wg;
        split; [|by destruct key];
        transitivity ((r' <- gif_branch env file final_name r ;;
                       ret (add_processed final_name r')) w0);
        [reflexivity|by rewrite (bind_ok _ _ _ _ _ Hgif)]
      | exists (add_processed final_name (with_stats (incr Converted) r)), wc;
        split; [|done];
        transitivity ((r' <- convert_branch env file final_name r ;;
                       ret (add_processed final_name r')) w0);
        [reflexivity|by rewrite (bind_ok _ _ _ _ _ Hconv)] ].
Qed.

Lemma process_files_works (listed : list string) (r : Run) (w : World) :
  ∃ r' w', process_files env listed r w = (Ok r', w')
           ∧ failed (stats r') = failed (stats r).
Proof.
  revert r w. induction listed as [|file rest IH]; intros r w; [by exists r, w|].
  cbn [process_files].
  destruct (process_file_works file r w) as (r1 & w1 & Hrun & Hfailed).
  rewrite (bind_ok _ _ _ _ _ Hrun).
  destruct (IH r1 w1) as (r' & w' & -> & Hfailed').
  exists r', w'. split; [done|]. congruence.
Qed.

End NoFailure.

(** X14. [failed] counts renames and conversions that failed, and nothing
    else: in an environment where every rename and every replace succeeds
    and ffmpeg always exits 0 leaving its output, no file is counted as
    failed -- whatever happens to reads and to deletions, which never count
    as failures. *)
Theorem failed_only_counts_rename_and_conversion (env : Env) :
  (∀ w src dst, rename_fails env w src dst = false) →
  (∀ w src dst, replace_fails env w src dst = false) →
  (∀ w input output, ∃ content, ffmpeg env w input output = (0, Some content)) →
  (∀ file r w,
      ∃ r' w', process_file env file r w = (Ok r', w')
               ∧ failed (stats r') = failed (stats r))
  ∧ (∀ listed w,
      ∃ r' w', process_files env listed new_run w = (Ok r', w')
               ∧ failed (stats r') = 0%nat).
Proof.
  intros Hren Hrep Hff. split.
  - intros file r w. by apply process_file_works.
  - intros listed w. by apply (process_files_works env Hren Hrep Hff listed new_run w).
Qed.

Lemma failed_only_counts_rename_and_conversion_witness :
  ∃ r' w',
    process_files undeletable (list_files scenario) new_run (folder scenario)
    = (Ok r', w')
    ∧ failed (stats r') = 0%nat.
Proof.
  destruct (failed_only_counts_rename_and_conversion undeletable) as [_ Hrun].
  - intros w src dst. reflexivity.
  - intros w src dst. reflexivity.
  - intros w input output. exists GIF_BYTES. reflexivity.
  - apply Hrun.
Defined.

(** ** Cleaning the folder path *)

Lemma lstrip_app_all (p : ascii → bool) (pre s : string) :
  all_chars p pre = true → lstrip p (pre +:+ s) = lstrip p s.
Proof.
  induction pre as [|c pre IH]; [done|]. simpl.
  intros [Hc Hpre]%andb_prop. rewrite Hc. by apply IH.
Qed.

Lemma lstrip_id (p : ascii → bool) (s : string) :
  starts_in p s = false → lstrip p s = s.
Proof. destruct s as [|c s]; [done|]. simpl. by intros ->. Qed.

Lemma rstrip_all (p : ascii → bool) (s : string) :
  all_chars p s = true → rstrip p s = "".
Proof.
  induction s as [|c s IH]; [done|]. simpl.
  intros [Hc Hs]%andb_prop. by rewrite (IH Hs), Hc.
Qed.

Lemma rstrip_id (p : ascii → bool) (s : string) :
  ends_in p s = false → rstrip p s = s.
Proof.
  induction s as [|c s IH]; [done|]. simpl.
  destruct s as [|c' s]; [by intros ->|].
  intros H. by rewrite (IH H).
Qed.

Lemma rstrip_cons (p : ascii → bool) (c : ascii) (s : string) :
  rstrip p (String c s)
  = match rstrip p s with
    | EmptyString => if p c then EmptyString else String c EmptyString
    | String c' t => String c (String c' t)
    end.
Proof. reflexivity. Qed.

Lemma rstrip_app_all (p : ascii → bool) (s post : string) :
  all_chars p post = true → ends_in p s = false → rstrip p (s +:+ post) = s.
Proof.
  intros Hpost. induction s as [|c s IH].
  - intros _. by apply rstrip_all.
  - destruct s as [|c' s].
    + intros Hc. change (String c "" +:+ post) with (String c post).
      simpl in *. by rewrite (rstrip_all p post Hpost), Hc.
    + intros H. rewrite app_cons, rstrip_cons. by rewrite (IH H).
Qed.

(** The heart of [strip]: what stands between two runs of characters of
    the set, and neither begins nor ends with one, is what is left. *)
Lemma strip_mid (p : ascii → bool) (pre mid post : string) :
  all_chars p pre = true → all_chars p post = true →
  starts_in p mid = false → ends_in p mid = false →
  strip p (pre +:+ mid +:+ post) = mid.
Proof.
  intros Hpre Hpost Hstart Hend. unfold strip. rewrite lstrip_app_all by done.
  destruct mid as [|c mid].
  - simpl. rewrite rstrip_all; [done|].
    clear -Hpost. induction post as [|c post IH]; [done|]. simpl in *.
    apply andb_prop in Hpost as [Hc Hpost]. rewrite Hc. by apply IH.
  - rewrite lstrip_id.
    + by apply rstrip_app_all.
    + by rewrite app_cons.
Qed.

Lemma lstrip_split (p : ascii → bool) (s : string) :
  ∃ pre, s = pre +:+ lstrip p s ∧ all_chars p pre = true
         ∧ starts_in p (lstrip p s) = false.
Proof.
  induction s as [|c s (pre & Hs & Hpre & Hstart)]; [by exists ""|]. simpl.
  destruct (p c) eqn:Hc.
  - exists (String c pre). rewrite app_cons, <-Hs. simpl. by rewrite Hc.
  - exists "". by simpl.
Qed.

Lemma rstrip_split (p : ascii → bool) (s : string) :
  ∃ post, s = rstrip p s +:+ post ∧ all_chars p post = true
          ∧ ends_in p (rstrip p s) = false.
Proof.
  induction s as [|c s (post & Hs & Hpost & Hend)]; [by exists ""|]. simpl.
  destruct (rstrip p s) as [|c' t] eqn:Hr.
  - change ("" +:+ post) with post in Hs. subst post. destruct (p c) eqn:Hc.
    + exists (String c s). split_and?; [done| |done]. simpl. by rewrite Hc.
    + exists s. split_and?; [done|done|]. simpl. exact Hc.
  - exists post. rewrite !app_cons. rewrite app_cons in Hs. by rewrite <-Hs.
Qed.

(** Stripping on the right leaves the first character alone. *)
Lemma rstrip_starts (p : ascii → bool) (s : string) :
  starts_in p s = false → starts_in p (rstrip p s) = false.
Proof.
  destruct s as [|c s]; [done|]. simpl. intros Hc.
  destruct (rstrip p s); [by rewrite Hc|done].
Qed.

Lemma strip_split (p : ascii → bool) (s : string) :
  ∃ pre post, s = pre +:+ strip p s +:+ post
              ∧ all_chars p pre = true ∧ all_chars p post = true
              ∧ starts_in p (strip p s) = false ∧ ends_in p (strip p s) = false.
Proof.
  destruct (lstrip_split p s) as (pre & Hs & Hpre & Hstart).
  destruct (rstrip_split p (lstrip p s)) as (post & Hl & Hpost & Hend).
  exists pre, post. unfold strip. rewrite <-Hl. split_and?; try done.
  by apply rstrip_starts.
Qed.

Lemma all_chars_app (p : ascii → bool) (s t : string) :
  all_chars p s = true → all_chars p t = true → all_chars p (s +:+ t) = true.
Proof.
  induction s as [|c s IH]; [done|]. rewrite app_cons. simpl.
  intros [Hc Hs]%andb_prop Ht. rewrite Hc. by apply IH.
Qed.

Lemma all_chars_impl (p q : ascii → bool) (s : string) :
  (∀ c, p c = true → q c = true) → all_chars p s = true → all_chars q s = true.
Proof.
  intros Hpq. induction s as [|c s IH]; [done|]. simpl.
  intros [Hc Hs]%andb_prop. by rewrite (Hpq c Hc), (IH Hs).
Qed.

Lemma starts_in_app (p : ascii → bool) (s t : string) :
  starts_in p s = false → starts_in p t = false → starts_in p (s +:+ t) = false.
Proof. by destruct s. Qed.

Lemma ends_in_app (p : ascii → bool) (s t : string) :
  ends_in p s = false → ends_in p t = false → ends_in p (s +:+ t) = false.
Proof.
  intros Hs Ht. induction s as [|c s IH]; [done|]. rewrite app_cons.
  destruct s as [|c' s].
  - simpl. destruct t; [done|]. exact Ht.
  - rewrite app_cons. rewrite app_cons in IH. simpl in *. by apply IH.
Qed.

(** A string of characters of one set neither begins nor ends with a
    character outside of it. *)
Lemma all_chars_starts (p q : ascii → bool) (s : string) :
  (∀ c, p c = true → q c = false) → all_chars p s = true → starts_in q s = false.
Proof.
  intros Hpq. destruct s as [|c s]; [done|]. simpl.
  intros [Hc _]%andb_prop. by apply Hpq.
Qed.

Lemma all_chars_ends (p q : ascii → bool) (s : string) :
  (∀ c, p c = true → q c = false) → all_chars p s = true → ends_in q s = false.
Proof.
  intros Hpq. induction s as [|c s IH]; [done|]. simpl.
  intros [Hc Hs]%andb_prop. destruct s; [by apply Hpq|by apply IH].
Qed.

Lemma has_char_single (a c : ascii) :
  has_char c (String a "") = bool_decide (c = a).
Proof.
  simpl. rewrite orb_false_r. apply bool_decide_ext. split; by intros ->.
Qed.

Lemma lstrip_ext (p q : ascii → bool) (s : string) :
  (∀ c, p c = q c) → lstrip p s = lstrip q s.
Proof.
  intros Hpq. induction s as [|c s IH]; [done|]. cbn [lstrip].
  by rewrite IH, Hpq.
Qed.

Lemma rstrip_ext (p q : ascii → bool) (s : string) :
  (∀ c, p c = q c) → rstrip p s = rstrip q s.
Proof.
  intros Hpq. induction s as [|c s IH]; [done|]. rewrite !rstrip_cons.
  by rewrite IH, Hpq.
Qed.

Lemma strip_chars_single (a : ascii) (s : string) :
  strip_chars (String a "") s = strip (λ c, bool_decide (c = a)) s.
Proof.
  unfold strip_chars, strip.
  rewrite (lstrip_ext _ (λ c, bool_decide (c = a))) by apply has_char_single.
  by apply rstrip_ext, has_char_single.
Qed.

Lemma clean_path_unfold (typed : string) :
  clean_path typed = strip is_squote (strip is_dquote (strip isspace typed)).
Proof. unfold clean_path. by rewrite !strip_chars_single. Qed.

Lemma strippable_false (c : ascii) :
  strippable c = false → isspace c = false ∧ is_dquote c = false ∧ is_squote c = false.
Proof.
  unfold strippable. intros [[??]%orb_false_elim ?]%orb_false_elim. done.
Qed.

Lemma starts_in_strippable (s : string) :
  starts_in strippable s = false →
  starts_in isspace s = false ∧ starts_in is_dquote s = false
  ∧ starts_in is_squote s = false.
Proof. destruct s as [|c s]; [done|]. apply strippable_false. Qed.

Lemma ends_in_strippable (s : string) :
  ends_in strippable s = false →
  ends_in isspace s = false ∧ ends_in is_dquote s = false
  ∧ ends_in is_squote s = false.
Proof.
  induction s as [|c s IH]; [done|]. simpl. destruct s; [|done].
  apply strippable_false.
Qed.

Lemma quotes_apart (c : ascii) :
  (is_dquote c = true → isspace c = false)
  ∧ (is_squote c = true → isspace c = false)
  ∧ (is_squote c = true → is_dquote c = false).
Proof.
  unfold is_dquote, is_squote.
  split_and?; intros ->%bool_decide_eq_true; reflexivity.
Qed.

(** X15. A path pasted with white space around it and wrapped in quotes
    comes out bare: when the path itself neither begins nor ends with white
    space or a quote, any white space, then any double quotes, then any
    single quotes before it, and the same in reverse order after it, are
    all removed, and nothing else is. *)
Theorem clean_path_unquotes
    (before dquotes1 squotes1 path squotes2 dquotes2 after : string) :
  all_chars isspace before = true → all_chars isspace after = true →
  all_chars is_dquote dquotes1 = true → all_chars is_dquote dquotes2 = true →
  all_chars is_squote squotes1 = true → all_chars is_squote squotes2 = true →
  starts_in strippable path = false → ends_in strippable path = false →
  clean_path (before +:+ dquotes1 +:+ squotes1 +:+ path
              +:+ squotes2 +:+ dquotes2 +:+ after) = path.
Proof.
  intros Hb Ha Hd1 Hd2 Hs1 Hs2 Hstart Hend.
  apply starts_in_strippable in Hstart as (Hstart_sp & Hstart_dq & Hstart_sq).
  apply ends_in_strippable in Hend as (Hend_sp & Hend_dq & Hend_sq).
  pose proof (λ c, proj1 (quotes_apart c)) as Hdq_sp.
  pose proof (λ c, proj1 (proj2 (quotes_apart c))) as Hsq_sp.
  pose proof (λ c, proj2 (proj2 (quotes_apart c))) as Hsq_dq.
  rewrite clean_path_unfold.
  set (inner := squotes1 +:+ path +:+ squotes2).
  set (outer := dquotes1 +:+ inner +:+ dquotes2).
  assert (before +:+ dquotes1 +:+ squotes1 +:+ path +:+ squotes2 +:+ dquotes2 +:+ after
          = before +:+ outer +:+ after) as ->
    by (unfold outer, inner; by rewrite !app_assoc_str).
  rewrite (strip_mid isspace before outer after); try done.
  - unfold outer. rewrite (strip_mid is_dquote dquotes1 inner dquotes2); try done.
    + unfold inner. by apply strip_mid.
    + unfold inner. repeat apply starts_in_app; try done.
      all: first [by apply (all_chars_starts is_dquote)|by apply (all_chars_starts is_squote)].
    + unfold inner. repeat apply ends_in_app; try done.
      all: first [by apply (all_chars_ends is_dquote)|by apply (all_chars_ends is_squote)].
  - unfold outer, inner. repeat apply starts_in_app; try done.
    all: first [by apply (all_chars_starts is_dquote)|by apply (all_chars_starts is_squote)].
  - unfold outer, inner. repeat apply ends_in_app; try done.
    all: first [by apply (all_chars_ends is_dquote)|by apply (all_chars_ends is_squote)].
Qed.

Lemma clean_path_unquotes_witness :
  clean_path ("  " +:+ String dquote "" +:+ "" +:+ "my gifs/new"
              +:+ "" +:+ String dquote "" +:+ " ") = "my gifs/new".
Proof. apply clean_path_unquotes; reflexivity. Defined.

(** X16. The clean-up of the path only trims: the result is a contiguous
    part of what was typed, what was cut off before and after it is white
    space and quotes only, and the result neither begins nor ends with a
    single quote. *)
Theorem clean_path_trims (typed : string) :
  ∃ pre post,
    typed = pre +:+ clean_path typed +:+ post
    ∧ all_chars strippable pre = true
    ∧ all_chars strippable post = true
    ∧ starts_in is_squote (clean_path typed) = false
    ∧ ends_in is_squote (clean_path typed) = false
    ∧ (String.length (clean_path typed) ≤ String.length typed)%nat.
Proof.
  rewrite clean_path_unfold.
  destruct (strip_split isspace typed) as (pre1 & post1 & H1 & Hpre1 & Hpost1 & _ & _).
  destruct (strip_split is_dquote (strip isspace typed))
    as (pre2 & post2 & H2 & Hpre2 & Hpost2 & _ & _).
  destruct (strip_split is_squote (strip is_dquote (strip isspace typed)))
    as (pre3 & post3 & H3 & Hpre3 & Hpost3 & Hstart & Hend).
  set (cleaned := strip is_squote (strip is_dquote (strip isspace typed))) in *.
  assert (∀ s, all_chars isspace s = true → all_chars strippable s = true) as Hsp.
  { intros s. apply all_chars_impl. unfold strippable. by intros c ->. }
  assert (∀ s, all_chars is_dquote s = true → all_chars strippable s = true) as Hdq.
  { intros s. apply all_chars_impl. unfold strippable. intros c ->.
    by rewrite orb_true_r. }
  assert (∀ s, all_chars is_squote s = true → all_chars strippable s = true) as Hsq.
  { intros s. apply all_chars_impl. unfold strippable. intros c ->.
    by rewrite orb_true_r. }
  assert (typed = (pre1 +:+ pre2 +:+ pre3) +:+ cleaned +:+ (post3 +:+ post2 +:+ post1))
    as Htyped.
  { rewrite H1 at 1. rewrite H2 at 1. rewrite H3 at 1. by rewrite !app_assoc_str. }
  exists (pre1 +:+ pre2 +:+ pre3), (post3 +:+ post2 +:+ post1).
  split_and?; try done.
  - repeat apply all_chars_app; auto.
  - repeat apply all_chars_app; auto.
  - apply (f_equal String.length) in Htyped. rewrite !app_length in Htyped. lia.
Qed.

(** ** The entry point *)



